(** * Newton-Raphson fractals: a model of [Fractal_exercis_new.py]

    The script iterates the Newton update of two complex polynomials over a
    grid of starting points, colours every point by the root it reaches and
    stores log10 of the number of steps.

    The model is written once, over an interface of scalar arithmetic
    ([Scalar], [Libm]), and read at two instances:
    - [ieee]: IEEE binary64 (the kernel's primitive floats), which is what
      the interpreter computes with;
    - [ideal]: the real numbers, which is the arithmetic the formulas of the
      script are about.
    On top of the scalars sit CPython's complex operations (sum, difference,
    product, Smith's quotient, power by squaring, absolute value) with the
    exceptions they raise, numpy's [linspace], [meshgrid] and [dstack], and
    then the functions and loops of the script, under their own names. *)

From Stdlib Require Import ZArith List Bool Lia String.
From Stdlib Require Import Floats.
From Stdlib Require Import Reals Lra.
Import ListNotations.

Local Open Scope Z_scope.

(** ** Exceptions and the result of a computation *)

Inductive exn : Type :=
| ZeroDivisionError   (* complex division by zero *)
| OverflowError       (* complex exponentiation, absolute value too large *)
| IndexError          (* index out of bounds *)
| ValueError          (* negative number of samples or dimensions *)
| TypeError.          (* cannot unpack None *)

Inductive result (A : Type) : Type :=
| Return (a : A)
| Raise (e : exn).

Arguments Return {A} a.
Arguments Raise {A} e.

Definition bind {A B : Type} (c : result A) (k : A -> result B) : result B :=
  match c with
  | Return a => k a
  | Raise e => Raise e
  end.

Notation "x <- c ;; k" := (bind c (fun x => k))
  (at level 61, c at next level, right associativity).

Definition from_option {A : Type} (e : exn) (o : option A) : result A :=
  match o with
  | Some a => Return a
  | None => Raise e
  end.

(** ** Scalars

    What the script and the runtime below it need of a Python [float]. *)

Class Scalar : Type := {
  F : Type;
  of_int : Z -> F;             (* an int operand coerced to float *)
  decimal : Z -> nat -> F;     (* the literal m * 10^-k *)
  nan : F;
  fadd : F -> F -> F;
  fsub : F -> F -> F;
  fmul : F -> F -> F;
  fdiv : F -> F -> F;          (* C division: no exception *)
  fneg : F -> F;
  fabs : F -> F;
  flt : F -> F -> bool;
  fle : F -> F -> bool;
  feq : F -> F -> bool;
  isinf : F -> bool;
  isfinite : F -> bool
}.

(** The two functions of the C mathematical library that are reached:
    [hypot] through [abs] of a complex, [log10] through [np.log10]. *)

Class Libm (Sc : Scalar) : Type := {
  hypot : @F Sc -> @F Sc -> @F Sc;
  log10 : @F Sc -> @F Sc
}.

(** ** The IEEE instance *)

Definition Z2float (z : Z) : float :=
  match z with
  | Z0 => PrimFloat.zero
  | _ => SF2Prim (binary_normalize prec emax z 0 false)
  end.

Definition ieee : Scalar := {|
  F := float;
  of_int := Z2float;
  decimal := fun m k => PrimFloat.div (Z2float m) (Z2float (10 ^ Z.of_nat k));
  nan := PrimFloat.nan;
  fadd := PrimFloat.add;
  fsub := PrimFloat.sub;
  fmul := PrimFloat.mul;
  fdiv := PrimFloat.div;
  fneg := PrimFloat.opp;
  fabs := PrimFloat.abs;
  flt := PrimFloat.ltb;
  fle := PrimFloat.leb;
  feq := PrimFloat.eqb;
  isinf := PrimFloat.is_infinity;
  isfinite := PrimFloat.is_finite
|}.

(** ** The ideal instance

    The real numbers, for the mathematics of the formulas: the derivatives
    and the roots of the polynomials, the interpolants. Nothing is rounded
    and nothing overflows there, so [isinf] is constantly false; what is
    said of the program is said at [ieee], or at every instance. *)

Definition Rltb (a b : R) : bool := if Rlt_dec a b then true else false.
Definition Rleb (a b : R) : bool := if Rle_dec a b then true else false.
Definition Reqb (a b : R) : bool := if Req_dec_T a b then true else false.

Definition ideal : Scalar := {|
  F := R;
  of_int := IZR;
  decimal := fun m k => Rdiv (IZR m) (IZR (10 ^ Z.of_nat k));
  nan := R0;
  fadd := Rplus;
  fsub := Rminus;
  fmul := Rmult;
  fdiv := Rdiv;
  fneg := Ropp;
  fabs := Rabs;
  flt := Rltb;
  fle := Rleb;
  feq := Reqb;
  isinf := fun _ => false;
  isfinite := fun _ => true
|}.

Definition ideal_hypot (x y : R) : R := sqrt (x * x + y * y).
Definition ideal_log10 (x : R) : R := (ln x / ln 10)%R.

Definition ideal_libm : Libm ideal := Build_Libm ideal ideal_hypot ideal_log10.

(** A coarse libm over binary64. The theorems about [ieee] hold for every
    libm; this one only serves to run them. *)

Definition coarse_hypot (x y : float) : float :=
  PrimFloat.sqrt (PrimFloat.add (PrimFloat.mul x x) (PrimFloat.mul y y)).
Definition coarse_log10 (x : float) : float :=
  PrimFloat.mul (Z2float (snd (Z.frexp x) - 1)) 0x1.34413509f79ffp-2.

Definition coarse_libm : Libm ieee := Build_Libm ieee coarse_hypot coarse_log10.

(** ** CPython's complex numbers ([Objects/complexobject.c])

    An int operand of a mixed operation is first coerced to a complex with
    imaginary part 0.0, as the interpreters before 3.14 do. *)

Section Complex.
Context {Sc : Scalar} {L : Libm Sc}.

Record pycomplex : Type := complex { real : F; imag : F }.

Definition c_1 : pycomplex := complex (of_int 1) (of_int 0).

Definition c_of_int (n : Z) : pycomplex := complex (of_int n) (of_int 0).

Definition c_sum (a b : pycomplex) : pycomplex :=
  complex (fadd (real a) (real b)) (fadd (imag a) (imag b)).

Definition c_diff (a b : pycomplex) : pycomplex :=
  complex (fsub (real a) (real b)) (fsub (imag a) (imag b)).

Definition c_prod (a b : pycomplex) : pycomplex :=
  complex (fsub (fmul (real a) (real b)) (fmul (imag a) (imag b)))
          (fadd (fmul (real a) (imag b)) (fmul (imag a) (real b))).

(** [_Py_c_quot] with the test of [complex_div]: Smith's algorithm, and
    ZeroDivisionError when both parts of the divisor are zero. *)
Definition c_quot (a b : pycomplex) : result pycomplex :=
  let abs_breal := if flt (real b) (of_int 0) then fneg (real b) else real b in
  let abs_bimag := if flt (imag b) (of_int 0) then fneg (imag b) else imag b in
  if fle abs_bimag abs_breal then
    if feq abs_breal (of_int 0) then Raise ZeroDivisionError
    else
      let ratio := fdiv (imag b) (real b) in
      let denom := fadd (real b) (fmul (imag b) ratio) in
      Return (complex (fdiv (fadd (real a) (fmul (imag a) ratio)) denom)
                      (fdiv (fsub (imag a) (fmul (real a) ratio)) denom))
  else if fle abs_breal abs_bimag then
    let ratio := fdiv (real b) (imag b) in
    let denom := fadd (fmul (real b) ratio) (imag b) in
    Return (complex (fdiv (fadd (fmul (real a) ratio) (imag a)) denom)
                    (fdiv (fsub (fmul (imag a) ratio) (real a)) denom))
  else Return (complex nan nan).

(** [c_powu]: [r] and [p] of the loop over the bits of the exponent, the
    lowest bit first; the last squaring of [p] is dead and left out. *)
Fixpoint c_powu_loop (r p : pycomplex) (n : positive) : pycomplex :=
  match n with
  | xH => c_prod r p
  | xO n' => c_powu_loop r (c_prod p p) n'
  | xI n' => c_powu_loop (c_prod r p) (c_prod p p) n'
  end.

Definition c_powu (x : pycomplex) (n : positive) : pycomplex :=
  c_powu_loop c_1 x n.

(** [complex_pow] at a positive int exponent of at most 100:
    OverflowError when a part of the power is infinite. *)
Definition c_pow (x : pycomplex) (n : positive) : result pycomplex :=
  let p := c_powu x n in
  if isinf (real p) || isinf (imag p) then Raise OverflowError
  else Return p.

(** [complex_abs] over [_Py_c_abs]. *)
Definition c_abs (z : pycomplex) : result F :=
  if isfinite (real z) && isfinite (imag z) then
    let r := hypot (real z) (imag z) in
    if isfinite r then Return r else Raise OverflowError
  else if isinf (real z) then Return (fabs (real z))
  else if isinf (imag z) then Return (fabs (imag z))
  else Return nan.

(** [complex == int] *)
Definition c_eq_int (z : pycomplex) (n : Z) : bool :=
  feq (imag z) (of_int 0) && feq (real z) (of_int n).

End Complex.

Arguments pycomplex : clear implicits.
Arguments pycomplex {Sc}.

(** ** numpy: [linspace], [meshgrid], [dstack], [zeros] *)

Section Numpy.
Context {Sc : Scalar}.

Definition range (n : Z) : list Z := map Z.of_nat (seq 0 (Z.to_nat n)).

Fixpoint set_last {A : Type} (l : list A) (v : A) : list A :=
  match l with
  | [] => []
  | [_] => [v]
  | a :: l' => a :: set_last l' v
  end.

(** [np.linspace(start, stop, num)]: the samples [k * step + start] with
    [step = (stop - start) / (num - 1)], the last one overwritten by
    [stop]. *)
Definition linspace (start stop : F) (num : Z) : result (list F) :=
  if num <? 0 then Raise ValueError
  else
    let div := num - 1 in
    let delta := fsub stop start in
    let y := map of_int (range num) in
    let y :=
      if 0 <? div then
        let step := fdiv delta (of_int div) in
        if feq step (of_int 0)
        then map (fun v => fmul (fdiv v (of_int div)) delta) y
        else map (fun v => fmul v step) y
      else map (fun v => fmul v delta) y in
    let y := map (fun v => fadd v start) y in
    Return (if 1 <? num then set_last y stop else y).

(** [np.meshgrid(xs, ys)] with the default indexing ['xy']: both
    matrices have one row per element of [ys]. *)
Definition meshgrid (xs ys : list F) : list (list F) * list (list F) :=
  (map (fun _ => xs) ys, map (fun yv => map (fun _ => yv) xs) ys).

(** [np.dstack((x, y))]: the two matrices stacked along a third axis. *)
Definition dstack (xy : list (list F) * list (list F)) : list (list (F * F)) :=
  map (fun rows => combine (fst rows) (snd rows)) (combine (fst xy) (snd xy)).

(** [np.zeros((n, n))] *)
Definition zeros (n : Z) : result (list (list F)) :=
  if n <? 0 then Raise ValueError
  else Return (repeat (repeat (of_int 0) (Z.to_nat n)) (Z.to_nat n)).

(** [a[i][j]] for [0 <= i] and [0 <= j] *)
Definition getitem2 {A : Type} (a : list (list A)) (i j : Z) : result A :=
  row <- from_option IndexError (nth_error a (Z.to_nat i)) ;;
  from_option IndexError (nth_error row (Z.to_nat j)).

Fixpoint set_nth {A : Type} (l : list A) (n : nat) (v : A) : option (list A) :=
  match l, n with
  | [], _ => None
  | _ :: l', O => Some (v :: l')
  | a :: l', S n' => option_map (cons a) (set_nth l' n' v)
  end.

(** [a[i][j] = v] for [0 <= i] and [0 <= j] *)
Definition setitem2 {A : Type} (a : list (list A)) (i j : Z) (v : A)
  : result (list (list A)) :=
  row <- from_option IndexError (nth_error a (Z.to_nat i)) ;;
  row' <- from_option IndexError (set_nth row (Z.to_nat j) v) ;;
  from_option IndexError (set_nth a (Z.to_nat i) row').

End Numpy.

(** ** The script *)

Section Script.
Context {Sc : Scalar} {L : Libm Sc}.

(** *** The cubic *)

(** [z**3 - 1] *)
Definition f (z : pycomplex) : result pycomplex :=
  z3 <- c_pow z 3 ;;
  Return (c_diff z3 (c_of_int 1)).

(** [z - (z**3 - 1)/(3*z**2)] *)
Definition Newton_Raphson (z : pycomplex) : result pycomplex :=
  z3 <- c_pow z 3 ;;
  z2 <- c_pow z 2 ;;
  q <- c_quot (c_diff z3 (c_of_int 1)) (c_prod (c_of_int 3) z2) ;;
  Return (c_diff z q).

(** *** The polynomial of degree 9 *)

(** [35 * z**9 - 180 * z**7 + 378 * z**5 - 420 * z**3 + 315 * z] *)
Definition f2 (z : pycomplex) : result pycomplex :=
  z9 <- c_pow z 9 ;;
  z7 <- c_pow z 7 ;;
  z5 <- c_pow z 5 ;;
  z3 <- c_pow z 3 ;;
  Return (c_sum (c_diff (c_sum (c_diff (c_prod (c_of_int 35) z9)
                                       (c_prod (c_of_int 180) z7))
                               (c_prod (c_of_int 378) z5))
                        (c_prod (c_of_int 420) z3))
                (c_prod (c_of_int 315) z)).

(** [z - (35 * z**9 - ... + 315 * z)/(35 * 9 * z**8 - ... + 315)], the
    numerator and the denominator written out as in the source. *)
Definition Newton_Raphson2 (z : pycomplex) : result pycomplex :=
  z9 <- c_pow z 9 ;;
  z7 <- c_pow z 7 ;;
  z5 <- c_pow z 5 ;;
  z3 <- c_pow z 3 ;;
  z8 <- c_pow z 8 ;;
  z6 <- c_pow z 6 ;;
  z4 <- c_pow z 4 ;;
  z2 <- c_pow z 2 ;;
  q <- c_quot
         (c_sum (c_diff (c_sum (c_diff (c_prod (c_of_int 35) z9)
                                       (c_prod (c_of_int 180) z7))
                               (c_prod (c_of_int 378) z5))
                        (c_prod (c_of_int 420) z3))
                (c_prod (c_of_int 315) z))
         (c_sum (c_diff (c_sum (c_diff (c_prod (c_of_int (35 * 9)) z8)
                                       (c_prod (c_of_int (180 * 7)) z6))
                               (c_prod (c_of_int (378 * 5)) z4))
                        (c_prod (c_of_int (420 * 3)) z2))
                (c_of_int 315)) ;;
  Return (c_diff z q).

(** *** The divisors

    The divisors of the two updates, as the source writes them inside
    [Newton_Raphson] and [Newton_Raphson2]. *)

(** [3*z**2] *)
Definition f_prime (z : pycomplex) : result pycomplex :=
  z2 <- c_pow z 2 ;;
  Return (c_prod (c_of_int 3) z2).

(** [35 * 9 * z**8 - 180 * 7 * z**6 + 378 * 5 * z**4 - 420 * 3 * z**2 + 315] *)
Definition f2_prime (z : pycomplex) : result pycomplex :=
  z8 <- c_pow z 8 ;;
  z6 <- c_pow z 6 ;;
  z4 <- c_pow z 4 ;;
  z2 <- c_pow z 2 ;;
  Return (c_sum (c_diff (c_sum (c_diff (c_prod (c_of_int (35 * 9)) z8)
                                       (c_prod (c_of_int (180 * 7)) z6))
                               (c_prod (c_of_int (378 * 5)) z4))
                        (c_prod (c_of_int (420 * 3)) z2))
                (c_of_int 315)).

(** *** The solver *)

(** The tuple a solver returns. *)
Record outcome : Type := mk_outcome {
  x_duplet : F;
  y_duplet : F;
  root : pycomplex;
  f_root : pycomplex;
  counter : Z;
  log_counter : F
}.

Section Solve.
Variable M : Z.                 (* maximal number of steps *)
Variable tolerance : F.
Variable update : pycomplex -> result pycomplex.
Variable func : pycomplex -> result pycomplex.
Variables x0 y0 : F.

(** [f_new == 0 or abs(z_new - z) < tolerance]: [or] evaluates its
    second operand only when the first is false. *)
Definition we_are_done (f_new z_new z : pycomplex) : result bool :=
  if c_eq_int f_new 0 then Return true
  else a <- c_abs (c_diff z_new z) ;; Return (flt a tolerance).

(** The body of [for i in range(M)], [todo] values of [i] left. Falling
    off the loop returns None. *)
Fixpoint solve_loop (todo : nat) (i : Z) (counter : Z) (z : pycomplex)
  : result (option outcome) :=
  match todo with
  | O => Return None
  | S todo' =>
      z_new <- update z ;;
      let counter := counter + 1 in
      f_new <- func z_new ;;
      done <- we_are_done f_new z_new z ;;
      if done then
        Return (Some (mk_outcome x0 y0 z_new f_new counter (log10 (of_int counter))))
      else if i =? M - 1 then
        Return (Some (mk_outcome x0 y0 z_new f_new counter (log10 (of_int counter))))
      else solve_loop todo' (i + 1) counter z_new
  end.

Definition solve : result (option outcome) :=
  solve_loop (Z.to_nat M) 0 0 (complex x0 y0).
End Solve.

Definition solve_cnewton (M : Z) (tolerance : F) (duplet : F * F)
  : result (option outcome) :=
  solve M tolerance Newton_Raphson f (fst duplet) (snd duplet).

Definition solve_cnewton2 (M : Z) (tolerance : F) (duplet : F * F)
  : result (option outcome) :=
  solve M tolerance Newton_Raphson2 f2 (fst duplet) (snd duplet).


(** *** The grid *)

(** [x_values], [y_values], [x, y = np.meshgrid(x_values, y_values)] and
    [grid = np.dstack((x, y))] *)
Definition make_grid (grid_point1 grid_point2 : F * F) (N : Z)
  : result (list (list (F * F))) :=
  let '(x1, y1) := grid_point1 in
  let '(x2, y2) := grid_point2 in
  x_values <- linspace x1 x2 N ;;
  y_values <- linspace y1 y2 N ;;
  Return (dstack (meshgrid x_values y_values)).

(** *** Classification: the colour of the marker *)

(** The [if]/[elif]/[else] chain of the cubic. *)
Definition classify (tolerance2 : F) (root : pycomplex) : string :=
  if flt (fabs (fsub (real root) (of_int 1))) tolerance2 then "k"
  else if flt (fabs (fsub (imag root) (decimal 8660254040 10))) tolerance2 then "g"
  else "r".

(** The chain of the polynomial of degree 9. *)
Definition classify2 (tolerance2 : F) (root : pycomplex) : string :=
  let re_minus c := flt (fabs (fsub (real root) c)) tolerance2 in
  let re_plus c := flt (fabs (fadd (real root) c)) tolerance2 in
  let im_minus c := flt (fabs (fsub (imag root) c)) tolerance2 in
  let im_plus c := flt (fabs (fadd (imag root) c)) tolerance2 in
  if re_minus (of_int 0) then "k"
  else if re_minus (decimal 93774544 8) && im_minus (decimal 65437520 8) then "g"
  else if re_minus (decimal 93774544 8) && im_plus (decimal 65437520 8) then "r"
  else if re_plus (decimal 93774544 8) && im_minus (decimal 65437520 8) then "darkorchid"
  else if re_plus (decimal 93774544 8) && im_plus (decimal 65437520 8) then "orange"
  else if re_plus (decimal 148569 5) && im_minus (decimal 295006 6) then "yellow"
  else if re_plus (decimal 148569 5) && im_plus (decimal 295006 6) then "cyan"
  else if re_minus (decimal 148569 5) && im_minus (decimal 295006 6) then "w"
  else "pink".

(** *** The evaluation of the grid *)

(** What the loops write: the matrix of log10(n), and the markers drawn
    by [plt.scatter], in the order of the calls. *)
Record figure : Type := mk_figure {
  log_n_matrix : list (list F);
  scatter : list (F * F * string)
}.

Fixpoint for_each {A St : Type} (xs : list A) (body : A -> St -> result St) (st : St)
  : result St :=
  match xs with
  | [] => Return st
  | x :: xs' => st' <- body x st ;; for_each xs' body st'
  end.

Section Evaluate.
Variable solver : F * F -> result (option outcome).
Variable label : pycomplex -> string.
Variable grid : list (list (F * F)).

(** The body of the inner loop: solve, unpack the tuple, store
    log10(n), draw the marker. *)
Definition evaluate_point (i j : Z) (fig : figure) : result figure :=
  duplet <- getitem2 grid i j ;;
  returned <- solver duplet ;;
  o <- from_option TypeError returned ;;
  m <- setitem2 (log_n_matrix fig) i j (log_counter o) ;;
  Return (mk_figure m (scatter fig ++ [(x_duplet o, y_duplet o, label (root o))])).

(** [for i in range(N): for j in range(N): ...] *)
Definition evaluate_grid (N : Z) (fig : figure) : result figure :=
  for_each (range N) (fun i => for_each (range N) (fun j => evaluate_point i j)) fig.
End Evaluate.

(** The cell of the cubic on the whole plane: the grid, the test call
    [solve_cnewton(grid[2][1])], the matrix of zeros, the loops. *)
Definition cubic_cell (M N : Z) (tolerance tolerance2 : F) (grid_point1 grid_point2 : F * F)
  : result figure :=
  grid <- make_grid grid_point1 grid_point2 N ;;
  test_point <- getitem2 grid 2 1 ;;
  test <- solve_cnewton M tolerance test_point ;;
  _ <- from_option TypeError test ;;
  log_n_matrix <- zeros N ;;
  evaluate_grid (solve_cnewton M tolerance) (classify tolerance2) grid N
                (mk_figure log_n_matrix []).

(** The cell of the polynomial of degree 9. *)
Definition degree9_cell (M N : Z) (tolerance tolerance2 : F) (grid_point1 grid_point2 : F * F)
  : result figure :=
  grid <- make_grid grid_point1 grid_point2 N ;;
  test_point <- getitem2 grid 2 1 ;;
  test <- solve_cnewton2 M tolerance test_point ;;
  _ <- from_option TypeError test ;;
  log_n_matrix <- zeros N ;;
  evaluate_grid (solve_cnewton2 M tolerance) (classify2 tolerance2) grid N
                (mk_figure log_n_matrix []).

(** The cell of the cubic on the zoomed window: the same loops, but the
    body does not store log10(n), and there is no test call. *)
Definition evaluate_point_zoom (solver : F * F -> result (option outcome))
           (label : pycomplex -> string) (grid : list (list (F * F)))
           (i j : Z) (fig : figure) : result figure :=
  duplet <- getitem2 grid i j ;;
  returned <- solver duplet ;;
  o <- from_option TypeError returned ;;
  Return (mk_figure (log_n_matrix fig)
                    (scatter fig ++ [(x_duplet o, y_duplet o, label (root o))])).

Definition zoom_cell (M N : Z) (tolerance tolerance2 : F) (grid_point1 grid_point2 : F * F)
  : result figure :=
  grid <- make_grid grid_point1 grid_point2 N ;;
  log_n_matrix <- zeros N ;;
  for_each (range N)
           (fun i => for_each (range N)
                       (fun j => evaluate_point_zoom (solve_cnewton M tolerance)
                                                     (classify tolerance2) grid i j))
           (mk_figure log_n_matrix []).

(** The corners of the zoomed window, (0.355, -1.010) and (0.371, -1.045). *)
Definition zoom_point1 : F * F := (decimal 355 3, fneg (decimal 1010 3)).
Definition zoom_point2 : F * F := (decimal 371 3, fneg (decimal 1045 3)).

(** The values the script sets. *)
Definition tolerance : F := decimal 1 9.
Definition tolerance2 : F := decimal 1 6.
Definition M : Z := 200.
Definition N : Z := 200.
Definition grid_point1 : F * F := (of_int (-2), of_int 2).
Definition grid_point2 : F * F := (of_int 2, of_int (-2)).

End Script.

(** ** The notions of the specification *)

Section Specification.
Context {Sc : Scalar}.

(** Linear interpolation between [a] and [b] at the fraction [t]. *)
Definition lerp (a b t : F) : F := fadd a (fmul t (fsub b a)).

(** The [k]-th of [N] equally spaced samples from [a] to [b], in the
    operations of the arithmetic and in the order in which numpy applies
    them: [k * step + a] with [step = (b - a) / (N - 1)], and where that
    step is == 0 the fraction [k / (N - 1)] of [b - a], added to [a]; the
    last sample is [b] itself. *)
Definition sample (a b : F) (N k : Z) : F :=
  if k =? N - 1 then b
  else
    let step := fdiv (fsub b a) (of_int (N - 1)) in
    if feq step (of_int 0)
    then fadd (fmul (fdiv (of_int k) (of_int (N - 1))) (fsub b a)) a
    else fadd (fmul (of_int k) step) a.

(** Every one of the [N] samples between [a] and [b] is within [eps] of
    the interpolant. *)
Definition within (eps a b : F) (N : Z) : bool :=
  forallb (fun k =>
             fle (fabs (fsub (sample a b N k)
                             (lerp a b (fdiv (of_int k) (of_int (N - 1))))))
                 eps)
          (range N).

(** A classification policy: predicates with their labels, tried in
    order; the label is that of the first predicate that holds. *)
Definition policy : Type := list ((pycomplex -> bool) * string).

Fixpoint first_match (ps : policy) (root : pycomplex) : option string :=
  match ps with
  | [] => None
  | (holds, l) :: ps' => if holds root then Some l else first_match ps' root
  end.

Definition near (v c eps : F) : bool := flt (fabs (fsub v c)) eps.
Definition near_opposite (v c eps : F) : bool := flt (fabs (fadd v c)) eps.

Definition cubic_policy (eps2 : F) : policy :=
  [ (fun root => near (real root) (of_int 1) eps2, "k"%string);
    (fun root => near (imag root) (decimal 8660254040 10) eps2, "g"%string);
    (fun _ => true, "r"%string) ].

Definition degree9_policy (eps2 : F) : policy :=
  let a := decimal 93774544 8 in
  let b := decimal 65437520 8 in
  let c := decimal 148569 5 in
  let d := decimal 295006 6 in
  [ (fun root => near (real root) (of_int 0) eps2, "k"%string);
    (fun root => near (real root) a eps2 && near (imag root) b eps2, "g"%string);
    (fun root => near (real root) a eps2 && near_opposite (imag root) b eps2, "r"%string);
    (fun root => near_opposite (real root) a eps2 && near (imag root) b eps2, "darkorchid"%string);
    (fun root => near_opposite (real root) a eps2 && near_opposite (imag root) b eps2, "orange"%string);
    (fun root => near_opposite (real root) c eps2 && near (imag root) d eps2, "yellow"%string);
    (fun root => near_opposite (real root) c eps2 && near_opposite (imag root) d eps2, "cyan"%string);
    (fun root => near (real root) c eps2 && near (imag root) d eps2, "w"%string);
    (fun _ => true, "pink"%string) ].

(** Polynomials with integer coefficients, the constant one first, their
    value at a complex number and their formal derivative. *)
Fixpoint peval (p : list Z) (z : pycomplex) : pycomplex :=
  match p with
  | [] => c_of_int 0
  | c :: p' => c_sum (c_of_int c) (c_prod z (peval p' z))
  end.

Fixpoint pderiv_from (k : Z) (p : list Z) : list Z :=
  match p with
  | [] => []
  | c :: p' => k * c :: pderiv_from (k + 1) p'
  end.

Definition pderiv (p : list Z) : list Z :=
  match p with
  | [] => []
  | _ :: p' => pderiv_from 1 p'
  end.

(** z^3 - 1 *)
Definition cubic : list Z := [-1; 0; 0; 1].

(** 35z^9 - 180z^7 + 378z^5 - 420z^3 + 315z *)
Definition degree9 : list Z := [0; 315; 0; -420; 0; 378; 0; -180; 0; 35].

(** The quotient of two complex numbers, by the conjugate. *)
Definition c_div (a b : pycomplex) : pycomplex :=
  let n := fadd (fmul (real b) (real b)) (fmul (imag b) (imag b)) in
  complex (fdiv (fadd (fmul (real a) (real b)) (fmul (imag a) (imag b))) n)
          (fdiv (fsub (fmul (imag a) (real b)) (fmul (real a) (imag b))) n).

(** A run of [M] steps from a duplet, under a libm: [zs] are the
    iterates and [fs] the values of the function at them; the test fails
    at each of the first [M - 1] steps and gives [last] at the last. *)
Definition run_of {L : Libm Sc} (update func : pycomplex -> result pycomplex)
           (tol : F) (M : Z) (duplet : F * F)
           (zs fs : nat -> pycomplex) (last : bool) : Prop :=
  zs O = complex (fst duplet) (snd duplet) /\
  forall n : nat, Z.of_nat n < M ->
    update (zs n) = Return (zs (S n)) /\
    func (zs (S n)) = Return (fs (S n)) /\
    we_are_done tol (fs (S n)) (zs (S n)) (zs n) =
      Return (if Z.of_nat n =? M - 1 then last else false).

(** The iterates of an update from [z0], an iterate kept where the update
    raises, and the values of a function, the argument kept where the
    function raises. *)
Fixpoint orbit (update : pycomplex -> result pycomplex) (z0 : pycomplex) (n : nat)
  : pycomplex :=
  match n with
  | O => z0
  | S n' =>
      match update (orbit update z0 n') with
      | Return z => z
      | Raise _ => orbit update z0 n'
      end
  end.

Definition value_of (func : pycomplex -> result pycomplex) (z : pycomplex) : pycomplex :=
  match func z with
  | Return v => v
  | Raise _ => z
  end.

(** An exception of the arithmetic. *)
Definition arithmetic_fault (e : exn) : Prop :=
  e = ZeroDivisionError \/ e = OverflowError.

End Specification.

(** ** Notions for the loops *)

Section LoopNotions.
Context {Sc : Scalar} {L : Libm Sc}.

(** The index pairs of the two nested loops over [range N], in the order
    in which the body meets them. *)
Definition points (N : Z) : list (Z * Z) :=
  flat_map (fun i => map (fun j => (i, j)) (range N)) (range N).

(** The marker drawn for an outcome. *)
Definition marker (label : pycomplex -> string) (o : outcome) : F * F * string :=
  (x_duplet o, y_duplet o, label (root o)).

(** The outcome a solver returns at the grid point of an index pair. *)
Definition outcome_at (solver : F * F -> result (option outcome))
           (grid : list (list (F * F))) (ij : Z * Z) (o : outcome) : Prop :=
  exists duplet,
    getitem2 grid (fst ij) (snd ij) = Return duplet /\
    solver duplet = Return (Some o).

(** The test first holds at step [k]: [zs] are the iterates from the
    duplet and [fs] the values of the function at them. *)
Definition first_holds_at (update func : pycomplex -> result pycomplex)
           (tol : F) (duplet : F * F) (zs fs : nat -> pycomplex) (k : nat) : Prop :=
  zs O = complex (fst duplet) (snd duplet) /\
  forall n : nat, (n < k)%nat ->
    update (zs n) = Return (zs (S n)) /\
    func (zs (S n)) = Return (fs (S n)) /\
    we_are_done tol (fs (S n)) (zs (S n)) (zs n) = Return (Nat.eqb (S n) k).

(** An outcome is explained by the iterates of the update from the
    duplet: its root is the iterate of rank [counter], its value that of the
    function there; every update on the way returned, at every earlier step
    the function returned and the test failed, and at the last step the test
    held or the budget was used up. *)
Definition explains (update func : pycomplex -> result pycomplex)
           (tol : F) (M : Z) (duplet : F * F) (o : outcome) : Prop :=
  let zs := orbit update (complex (fst duplet) (snd duplet)) in
  exists n : nat,
    counter o = Z.of_nat (S n) /\
    root o = zs (S n) /\
    func (root o) = Return (f_root o) /\
    (forall m : nat, (m <= n)%nat -> update (zs m) = Return (zs (S m))) /\
    (forall m : nat, (m < n)%nat ->
       func (zs (S m)) = Return (value_of func (zs (S m))) /\
       we_are_done tol (value_of func (zs (S m))) (zs (S m)) (zs m) = Return false) /\
    (we_are_done tol (f_root o) (root o) (zs n) = Return true \/ counter o = M).

(** A matrix of [n] rows of [n] elements. *)
Definition square {A : Type} (n : Z) (m : list (list A)) : Prop :=
  List.length m = Z.to_nat n /\ Forall (fun row => List.length row = Z.to_nat n) m.

End LoopNotions.

(** * Properties *)

(** ** The monad and the loops *)

Lemma bind_Return {A B : Type} (c : result A) (k : A -> result B) (b : B) :
  bind c k = Return b -> exists a, c = Return a /\ k a = Return b.
Proof.
  destruct c as [a|e]; simpl; intros H; [exists a; auto | discriminate].
Qed.

Lemma bind_Raise {A B : Type} (c : result A) (k : A -> result B) (e : exn) :
  bind c k = Raise e -> c = Raise e \/ exists a, c = Return a /\ k a = Raise e.
Proof.
  destruct c as [a|e']; simpl; intros H; [right; exists a; auto | left; congruence].
Qed.

Ltac inv_bind H :=
  let a := fresh "v" in
  let Ha := fresh "H" a in
  apply bind_Return in H; destruct H as [a [Ha H]].

Ltac inv_Return H := injection H as H; try subst.

(** Both sides of an equation evaluated, the type left alone. *)
Ltac run :=
  match goal with
  | |- ?l = ?r => vm_compute l; vm_compute r; reflexivity
  end.

(** ** The solver, whatever the update and the function *)

Section SolverFacts.
Context {Sc : Scalar} {L : Libm Sc}.
Variable M : Z.
Variable tolerance : F.
Variables update func : pycomplex -> result pycomplex.
Variables x0 y0 : F.

Let loop := solve_loop M tolerance update func x0 y0.

(** The unfolding of one turn of the loop. *)
Lemma solve_loop_S (todo : nat) (i c : Z) (z : pycomplex) :
  loop (S todo) i c z =
  (z_new <- update z ;;
   f_new <- func z_new ;;
   done <- we_are_done tolerance f_new z_new z ;;
   if done then
     Return (Some (mk_outcome x0 y0 z_new f_new (c + 1) (log10 (of_int (c + 1)))))
   else if i =? M - 1 then
     Return (Some (mk_outcome x0 y0 z_new f_new (c + 1) (log10 (of_int (c + 1)))))
   else loop todo (i + 1) (c + 1) z_new).
Proof. reflexivity. Qed.

(** An outcome carries the duplet it was started from, a counter between
    the one at entry plus one and the number of turns left, and the
    logarithm of that counter. *)
Lemma solve_loop_outcome (todo : nat) :
  forall (i c : Z) (z : pycomplex) (o : outcome),
    loop todo i c z = Return (Some o) ->
    x_duplet o = x0 /\ y_duplet o = y0 /\
    c + 1 <= counter o <= c + Z.of_nat todo /\
    log_counter o = log10 (of_int (counter o)).
Proof.
  induction todo as [|todo IH]; intros i c z o H.
  - discriminate.
  - rewrite solve_loop_S in H.
    inv_bind H. inv_bind H. inv_bind H.
    destruct v1.
    + inv_Return H. simpl. repeat split; lia.
    + destruct (i =? M - 1).
      * inv_Return H. simpl. repeat split; lia.
      * apply IH in H. destruct H as (Hx & Hy & Hc & Hl).
        repeat split; auto; lia.
Qed.

(** The loop falls through only when the turn with [i = M - 1] is not
    among those left. *)
Lemma solve_loop_None (todo : nat) :
  forall (i c : Z) (z : pycomplex),
    loop todo i c z = Return None ->
    ~ (i <= M - 1 < i + Z.of_nat todo).
Proof.
  induction todo as [|todo IH]; intros i c z H.
  - lia.
  - rewrite solve_loop_S in H.
    inv_bind H. inv_bind H. inv_bind H.
    destruct v1; [discriminate|].
    destruct (Z.eqb_spec i (M - 1)); [discriminate|].
    apply IH in H. lia.
Qed.

(** A fault of the loop is a fault of the update, of the function or of
    the test. *)
Lemma solve_loop_Raise (P : exn -> Prop) :
  (forall z e, update z = Raise e -> P e) ->
  (forall z e, func z = Raise e -> P e) ->
  (forall a b c e, we_are_done tolerance a b c = Raise e -> P e) ->
  forall (todo : nat) (i c : Z) (z : pycomplex) (e : exn),
    loop todo i c z = Raise e -> P e.
Proof.
  intros Hu Hf Hd.
  induction todo as [|todo IH]; intros i c z e H.
  - discriminate.
  - rewrite solve_loop_S in H.
    apply bind_Raise in H. destruct H as [H|[z_new [_ H]]]; [eauto|].
    apply bind_Raise in H. destruct H as [H|[f_new [_ H]]]; [eauto|].
    apply bind_Raise in H. destruct H as [H|[done [_ H]]]; [eauto|].
    destruct done; [discriminate|].
    destruct (i =? M - 1); [discriminate|].
    eauto.
Qed.

(** With no step to take the solver returns None. *)
Lemma solve_no_budget : M <= 0 -> solve M tolerance update func x0 y0 = Return None.
Proof.
  intros HM. unfold solve.
  replace (Z.to_nat M) with O by lia. reflexivity.
Qed.

(** With at least one step it does not. *)
Lemma solve_budget : 1 <= M -> solve M tolerance update func x0 y0 <> Return None.
Proof.
  intros HM H. apply solve_loop_None in H. lia.
Qed.

Lemma solve_outcome (o : outcome) :
  solve M tolerance update func x0 y0 = Return (Some o) ->
  x_duplet o = x0 /\ y_duplet o = y0 /\ 1 <= counter o <= M /\
  log_counter o = log10 (of_int (counter o)).
Proof.
  intros H. apply solve_loop_outcome in H.
  destruct H as (Hx & Hy & Hc & Hl). repeat split; auto; lia.
Qed.

End SolverFacts.

(** One turn of the loop is enough when the function is == 0 at the first
    iterate: the distance to the start is not looked at. *)
Lemma solve_one_turn {Sc : Scalar} {L : Libm Sc} (M : Z) (tol : F)
      (update func : pycomplex -> result pycomplex) (x y : F) (z1 v : pycomplex) :
  1 <= M ->
  update (complex x y) = Return z1 ->
  func z1 = Return v ->
  c_eq_int v 0 = true ->
  solve M tol update func x y =
  Return (Some (mk_outcome x y z1 v 1 (log10 (of_int 1)))).
Proof.
  intros HM Hu Hf H0. unfold solve.
  destruct (Z.to_nat M) as [|todo] eqn:E; [lia|].
  rewrite solve_loop_S, Hu. cbn [bind]. rewrite Hf. cbn [bind].
  unfold we_are_done. rewrite H0. reflexivity.
Qed.

(** ** The exceptions of the arithmetic *)

Section Faults.
Context {Sc : Scalar} {L : Libm Sc}.

Lemma c_pow_Raise (z : pycomplex) (n : positive) (e : exn) :
  c_pow z n = Raise e -> e = OverflowError.
Proof.
  unfold c_pow. destruct (isinf _ || isinf _); congruence.
Qed.

Lemma c_quot_Raise (a b : pycomplex) (e : exn) :
  c_quot a b = Raise e -> e = ZeroDivisionError.
Proof.
  unfold c_quot.
  repeat match goal with |- context [if ?c then _ else _] => destruct c end;
    congruence.
Qed.

Lemma c_abs_Raise (z : pycomplex) (e : exn) :
  c_abs z = Raise e -> e = OverflowError.
Proof.
  unfold c_abs.
  repeat match goal with |- context [if ?c then _ else _] => destruct c end;
    congruence.
Qed.

Ltac fault H :=
  repeat (apply bind_Raise in H;
          destruct H as [H|[? [_ H]]];
          [apply c_pow_Raise in H; right; exact H|]).

Lemma f_Raise (z : pycomplex) (e : exn) : f z = Raise e -> arithmetic_fault e.
Proof. unfold f. intros H. fault H. discriminate. Qed.

Lemma f2_Raise (z : pycomplex) (e : exn) : f2 z = Raise e -> arithmetic_fault e.
Proof. unfold f2. intros H. fault H. discriminate. Qed.

Lemma Newton_Raphson_Raise (z : pycomplex) (e : exn) :
  Newton_Raphson z = Raise e -> arithmetic_fault e.
Proof.
  unfold Newton_Raphson. intros H. fault H.
  apply bind_Raise in H. destruct H as [H|[? [_ H]]]; [|discriminate].
  apply c_quot_Raise in H. left; exact H.
Qed.

Lemma Newton_Raphson2_Raise (z : pycomplex) (e : exn) :
  Newton_Raphson2 z = Raise e -> arithmetic_fault e.
Proof.
  unfold Newton_Raphson2. intros H. fault H.
  apply bind_Raise in H. destruct H as [H|[? [_ H]]]; [|discriminate].
  apply c_quot_Raise in H. left; exact H.
Qed.

Lemma we_are_done_Raise (tol : F) (a b c : pycomplex) (e : exn) :
  we_are_done tol a b c = Raise e -> arithmetic_fault e.
Proof.
  unfold we_are_done. destruct (c_eq_int a 0); [discriminate|].
  intros H. apply bind_Raise in H. destruct H as [H|[? [_ H]]]; [|discriminate].
  apply c_abs_Raise in H. right; exact H.
Qed.

Lemma solve_cnewton_Raise (M : Z) (tol : F) (duplet : F * F) (e : exn) :
  solve_cnewton M tol duplet = Raise e -> arithmetic_fault e.
Proof.
  unfold solve_cnewton, solve.
  apply solve_loop_Raise;
    eauto using Newton_Raphson_Raise, f_Raise, we_are_done_Raise.
Qed.

Lemma solve_cnewton2_Raise (M : Z) (tol : F) (duplet : F * F) (e : exn) :
  solve_cnewton2 M tol duplet = Raise e -> arithmetic_fault e.
Proof.
  unfold solve_cnewton2, solve.
  apply solve_loop_Raise;
    eauto using Newton_Raphson2_Raise, f2_Raise, we_are_done_Raise.
Qed.

(** In every arithmetic the update of the cubic is [z] minus the quotient
    of [f] by [3*z**2], and that of the other polynomial [z] minus the
    quotient of [f2] by the second expression of the source. *)
Lemma Newton_Raphson_shape (z : pycomplex) :
  Newton_Raphson z =
  (num <- f z ;;
   z2 <- c_pow z 2 ;;
   q <- c_quot num (c_prod (c_of_int 3) z2) ;;
   Return (c_diff z q)).
Proof. unfold Newton_Raphson, f. destruct (c_pow z 3); reflexivity. Qed.

Lemma Newton_Raphson2_shape (z : pycomplex) :
  Newton_Raphson2 z =
  (num <- f2 z ;;
   z8 <- c_pow z 8 ;;
   z6 <- c_pow z 6 ;;
   z4 <- c_pow z 4 ;;
   z2 <- c_pow z 2 ;;
   q <- c_quot num
          (c_sum (c_diff (c_sum (c_diff (c_prod (c_of_int 315) z8)
                                        (c_prod (c_of_int 1260) z6))
                                (c_prod (c_of_int 1890) z4))
                         (c_prod (c_of_int 1260) z2))
                 (c_of_int 315)) ;;
   Return (c_diff z q)).
Proof.
  unfold Newton_Raphson2, f2.
  destruct (c_pow z 9); [|reflexivity].
  destruct (c_pow z 7); [|reflexivity].
  destruct (c_pow z 5); [|reflexivity].
  destruct (c_pow z 3); reflexivity.
Qed.

(** And with the divisors named: each update is [z] minus the quotient of
    the function by the divisor, the function evaluated first. *)
Lemma Newton_Raphson_quotient (z : pycomplex) :
  Newton_Raphson z =
  (num <- f z ;;
   den <- f_prime z ;;
   q <- c_quot num den ;;
   Return (c_diff z q)).
Proof.
  unfold Newton_Raphson, f, f_prime.
  destruct (c_pow z 3); [|reflexivity]. cbn [bind].
  destruct (c_pow z 2); reflexivity.
Qed.

Lemma Newton_Raphson2_quotient (z : pycomplex) :
  Newton_Raphson2 z =
  (num <- f2 z ;;
   den <- f2_prime z ;;
   q <- c_quot num den ;;
   Return (c_diff z q)).
Proof.
  unfold Newton_Raphson2, f2, f2_prime.
  destruct (c_pow z 9); [|reflexivity]. cbn [bind].
  destruct (c_pow z 7); [|reflexivity]. cbn [bind].
  destruct (c_pow z 5); [|reflexivity]. cbn [bind].
  destruct (c_pow z 3); [|reflexivity]. cbn [bind].
  destruct (c_pow z 8); [|reflexivity]. cbn [bind].
  destruct (c_pow z 6); [|reflexivity]. cbn [bind].
  destruct (c_pow z 4); [|reflexivity]. cbn [bind].
  destruct (c_pow z 2); reflexivity.
Qed.

Lemma f_prime_Raise (z : pycomplex) (e : exn) : f_prime z = Raise e -> e = OverflowError.
Proof.
  unfold f_prime. intros H.
  apply bind_Raise in H. destruct H as [H|[? [_ H]]]; [|discriminate].
  apply c_pow_Raise in H. exact H.
Qed.

Lemma f2_prime_Raise (z : pycomplex) (e : exn) : f2_prime z = Raise e -> e = OverflowError.
Proof.
  unfold f2_prime. intros H.
  repeat (apply bind_Raise in H;
          destruct H as [H|[? [_ H]]];
          [apply c_pow_Raise in H; exact H|]).
  discriminate.
Qed.

Lemma f_overflows (z : pycomplex) (e : exn) : f z = Raise e -> e = OverflowError.
Proof.
  unfold f. intros H.
  apply bind_Raise in H. destruct H as [H|[? [_ H]]]; [|discriminate].
  apply c_pow_Raise in H. exact H.
Qed.

Lemma f2_overflows (z : pycomplex) (e : exn) : f2 z = Raise e -> e = OverflowError.
Proof.
  unfold f2. intros H.
  repeat (apply bind_Raise in H;
          destruct H as [H|[? [_ H]]];
          [apply c_pow_Raise in H; exact H|]).
  discriminate.
Qed.

End Faults.

(** ** The solver on binary64 *)

Local Abbreviation complex64 := (@complex ieee).
Local Abbreviation outcome64 := (@mk_outcome ieee).

(** The decimal literals of the script, as the interpreter reads them. *)
Example literals_binary64 :
  @tolerance ieee = 0x1.12e0be826d695p-30%float /\
  @tolerance2 ieee = 0x1.0c6f7a0b5ed8dp-20%float /\
  @decimal ieee 8660254040 10 = 0x1.bb67ae875ed0fp-1%float /\
  @decimal ieee 93774544 8 = 0x1.e0202b998bd7cp-1%float /\
  @decimal ieee 65437520 8 = 0x1.4f0a4426a07dcp-1%float /\
  @decimal ieee 148569 5 = 0x1.7c562e09fe868p+0%float /\
  @decimal ieee 295006 6 = 0x1.2e160d887ebf2p-2%float.
Proof. repeat split; run. Qed.

(** *** Division by zero on binary64

    A double is == 0 when it is one of the two zeros, and the quotient of
    two complex numbers raises exactly when both parts of the divisor
    are. *)

Lemma eqb_zero (x : float) :
  PrimFloat.eqb x PrimFloat.zero = true <-> x = 0%float \/ x = (-0)%float.
Proof.
  split.
  - rewrite eqb_spec. change (Prim2SF PrimFloat.zero) with (S754_zero false).
    intros H.
    destruct (Prim2SF x) as [s|s| |s m e] eqn:E; try discriminate H.
    + rewrite <- (SF2Prim_Prim2SF x), E. destruct s; [right|left]; reflexivity.
    + destruct s; discriminate H.
    + destruct s; discriminate H.
  - intros [->| ->]; reflexivity.
Qed.

Lemma c_quot_zero_divisor (a b : @pycomplex ieee) :
  @c_eq_int ieee b 0 = true <-> @c_quot ieee a b = Raise ZeroDivisionError.
Proof.
  destruct b as [br bi]. unfold c_eq_int. cbn [real imag]. split.
  - intros H. apply andb_prop in H. destruct H as [Hi Hr].
    apply eqb_zero in Hi. apply eqb_zero in Hr.
    destruct Hi as [-> | ->], Hr as [-> | ->]; reflexivity.
  - unfold c_quot. cbn [real imag ieee feq flt fle fneg of_int F Z2float].
    destruct (PrimFloat.ltb br PrimFloat.zero) eqn:Lr,
             (PrimFloat.ltb bi PrimFloat.zero) eqn:Li;
    match goal with
    | |- (if ?c then _ else _) = _ -> _ => destruct c eqn:Le
    end;
    try (match goal with
         | |- (if ?c then _ else _) = _ -> _ => destruct c eqn:Ee
         end);
    intros H; try discriminate H; clear H;
    rewrite ?ltb_spec, ?leb_spec, ?eqb_spec, ?opp_spec in *;
    change (Prim2SF PrimFloat.zero) with (S754_zero false) in *;
    destruct (Prim2SF br) as [sr|sr| |sr mr er], (Prim2SF bi) as [si|si| |si mi ei];
    try destruct sr; try destruct si;
    try discriminate Lr; try discriminate Li; try discriminate Le; try discriminate Ee;
    reflexivity.
Qed.

Lemma c_quot_returns (a b : @pycomplex ieee) :
  @c_eq_int ieee b 0 = false -> exists q, @c_quot ieee a b = Return q.
Proof.
  intros Hb. destruct (@c_quot ieee a b) as [q|e] eqn:E; [exists q; reflexivity|].
  pose proof (c_quot_Raise _ _ _ E) as ->.
  apply c_quot_zero_divisor in E. congruence.
Qed.

(** So an update raises ZeroDivisionError when the function and the
    divisor are computed and the divisor is == 0, and returns [z] minus the
    quotient when the divisor is not. *)
Lemma Newton_Raphson_divides_by_zero (z num den : @pycomplex ieee) :
  f z = Return num -> f_prime z = Return den -> c_eq_int den 0 = true ->
  Newton_Raphson z = Raise ZeroDivisionError.
Proof.
  intros Hn Hd H0. rewrite Newton_Raphson_quotient, Hn, Hd. cbn [bind].
  apply (c_quot_zero_divisor num) in H0. rewrite H0. reflexivity.
Qed.

Lemma Newton_Raphson2_divides_by_zero (z num den : @pycomplex ieee) :
  f2 z = Return num -> f2_prime z = Return den -> c_eq_int den 0 = true ->
  Newton_Raphson2 z = Raise ZeroDivisionError.
Proof.
  intros Hn Hd H0. rewrite Newton_Raphson2_quotient, Hn, Hd. cbn [bind].
  apply (c_quot_zero_divisor num) in H0. rewrite H0. reflexivity.
Qed.

Lemma Newton_Raphson_divides (z num den : @pycomplex ieee) :
  f z = Return num -> f_prime z = Return den -> c_eq_int den 0 = false ->
  exists q, c_quot num den = Return q /\ Newton_Raphson z = Return (c_diff z q).
Proof.
  intros Hn Hd H0. destruct (c_quot_returns num den H0) as [q Hq].
  exists q. split; [exact Hq|].
  rewrite Newton_Raphson_quotient, Hn, Hd. cbn [bind]. rewrite Hq. reflexivity.
Qed.

Lemma Newton_Raphson2_divides (z num den : @pycomplex ieee) :
  f2 z = Return num -> f2_prime z = Return den -> c_eq_int den 0 = false ->
  exists q, c_quot num den = Return q /\ Newton_Raphson2 z = Return (c_diff z q).
Proof.
  intros Hn Hd H0. destruct (c_quot_returns num den H0) as [q Hq].
  exists q. split; [exact Hq|].
  rewrite Newton_Raphson2_quotient, Hn, Hd. cbn [bind]. rewrite Hq. reflexivity.
Qed.

(** What an update raises, and when: OverflowError when a power
    overflows, in the function or in the divisor, ZeroDivisionError when
    both are computed and the divisor is == 0, and nothing otherwise. *)
Lemma quotient_raises (fz dz : result (@pycomplex ieee)) (z : @pycomplex ieee) (e : exn) :
  (forall e', fz = Raise e' -> e' = OverflowError) ->
  (forall e', dz = Raise e' -> e' = OverflowError) ->
  (num <- fz ;; den <- dz ;; q <- @c_quot ieee num den ;; Return (c_diff z q)) = Raise e <->
  (e = OverflowError /\ (fz = Raise OverflowError \/ dz = Raise OverflowError)) \/
  (e = ZeroDivisionError /\
   exists num den, fz = Return num /\ dz = Return den /\ @c_eq_int ieee den 0 = true).
Proof.
  intros Hf Hd.
  destruct fz as [num|e1].
  - destruct dz as [den|e2]; cbn [bind].
    + destruct (@c_quot ieee num den) as [q|e3] eqn:E; cbn [bind].
      * split; [discriminate|].
        intros [[_ [H|H]]|[_ (num' & den' & Hn & Hd' & H0)]]; try discriminate.
        injection Hn as <-. injection Hd' as <-.
        apply (c_quot_zero_divisor num) in H0. congruence.
      * pose proof (c_quot_Raise _ _ _ E) as ->.
        split.
        -- intros H. injection H as <-. right. split; [reflexivity|].
           exists num, den. repeat split. apply (c_quot_zero_divisor num). exact E.
        -- intros [[_ [H|H]]|[-> _]]; try discriminate. reflexivity.
    + pose proof (Hd e2 eq_refl) as ->. split.
      * intros H. injection H as <-. left. split; [reflexivity | right; reflexivity].
      * intros [[-> _]|[_ (num' & den' & _ & Hd' & _)]]; [reflexivity | discriminate].
  - pose proof (Hf e1 eq_refl) as ->. cbn [bind]. split.
    + intros H. injection H as <-. left. split; [reflexivity | left; reflexivity].
    + intros [[-> _]|[_ (num' & den' & Hn & _)]]; [reflexivity | discriminate].
Qed.

Lemma Newton_Raphson_raises (z : @pycomplex ieee) (e : exn) :
  @Newton_Raphson ieee z = Raise e <->
  (e = OverflowError /\
   (@f ieee z = Raise OverflowError \/ @f_prime ieee z = Raise OverflowError)) \/
  (e = ZeroDivisionError /\
   exists num den,
     @f ieee z = Return num /\ @f_prime ieee z = Return den /\
     @c_eq_int ieee den 0 = true).
Proof.
  rewrite Newton_Raphson_quotient.
  apply quotient_raises; intros e'; [apply f_overflows | apply f_prime_Raise].
Qed.

Lemma Newton_Raphson2_raises (z : @pycomplex ieee) (e : exn) :
  @Newton_Raphson2 ieee z = Raise e <->
  (e = OverflowError /\
   (@f2 ieee z = Raise OverflowError \/ @f2_prime ieee z = Raise OverflowError)) \/
  (e = ZeroDivisionError /\
   exists num den,
     @f2 ieee z = Return num /\ @f2_prime ieee z = Return den /\
     @c_eq_int ieee den 0 = true).
Proof.
  rewrite Newton_Raphson2_quotient.
  apply quotient_raises; intros e'; [apply f2_overflows | apply f2_prime_Raise].
Qed.

Section OnFloats.
Variable L : Libm ieee.

Lemma Newton_Raphson_at_1 :
  @Newton_Raphson ieee (complex64 1%float 0%float) = Return (complex64 1%float 0%float).
Proof. run. Qed.

Lemma f_at_1 : @f ieee (complex64 1%float 0%float) = Return (complex64 0%float 0%float).
Proof. run. Qed.

Lemma we_are_done_at_root (tol : float) (z_new z : @pycomplex ieee) :
  @we_are_done ieee L tol (complex64 0%float 0%float) z_new z = Return true.
Proof. reflexivity. Qed.

Lemma Newton_Raphson_at_0 :
  @Newton_Raphson ieee (complex64 0%float 0%float) = Raise ZeroDivisionError.
Proof. run. Qed.

Lemma Newton_Raphson_overflow :
  @Newton_Raphson ieee (complex64 (Z2float (10 ^ 200)) 0%float) = Raise OverflowError.
Proof. run. Qed.

(** A fault of the first update is the result of the solver. *)
Lemma solve_first_fault (M : Z) (tol : float)
      (update func : @pycomplex ieee -> result pycomplex) (x y : float) (e : exn) :
  1 <= M ->
  update (complex64 x y) = Raise e ->
  @solve ieee L M tol update func x y = Raise e.
Proof.
  intros HM H. unfold solve.
  destruct (Z.to_nat M) as [|todo] eqn:E; [lia|].
  rewrite solve_loop_S, H. reflexivity.
Qed.

End OnFloats.

(** ** The claims on the solver *)

(** C1. For the cubic, with at least one step allowed and the tolerance
    1e-9, the solver started from the duplet (1, 0) returns after one step:
    the counter is 1, the estimate is exactly 1+0i and the value of the
    function there is exactly 0. This is on binary64, for every libm. *)
Theorem solve_cnewton_from_root (L : Libm ieee) (M : Z) :
  1 <= M ->
  @solve_cnewton ieee L M (@tolerance ieee) (1%float, 0%float) =
  Return (Some (outcome64 1%float 0%float
                           (complex64 1%float 0%float) (complex64 0%float 0%float)
                           1 (@log10 ieee L 1%float))).
Proof.
  intros HM. unfold solve_cnewton, solve. simpl fst; simpl snd.
  destruct (Z.to_nat M) as [|todo] eqn:E; [lia|].
  rewrite solve_loop_S, Newton_Raphson_at_1. cbn [bind].
  rewrite f_at_1. cbn [bind].
  rewrite we_are_done_at_root. reflexivity.
Qed.

Lemma solve_cnewton_from_root_witness :
  @solve_cnewton ieee coarse_libm 200 (@tolerance ieee) (1%float, 0%float) =
  Return (Some (outcome64 1%float 0%float
                           (complex64 1%float 0%float) (complex64 0%float 0%float)
                           1 (@log10 ieee coarse_libm 1%float))).
Proof. apply (solve_cnewton_from_root coarse_libm 200). lia. Defined.

(** C4. Whenever a solver returns an outcome, its counter lies between 1
    and M, the stored logarithm is log10 of that counter, and log10 of the
    counter lies between 0 and log10 of M. *)
Theorem counter_bounds {Sc : Scalar} {L : Libm Sc}
        (M : Z) (tol : F) (duplet : F * F) (o : outcome) :
  1 <= M ->
  solve_cnewton M tol duplet = Return (Some o) \/
  solve_cnewton2 M tol duplet = Return (Some o) ->
  1 <= counter o <= M /\
  log_counter o = log10 (of_int (counter o)) /\
  (0 <= ideal_log10 (IZR (counter o)) <= ideal_log10 (IZR M))%R.
Proof.
  intros HM H.
  assert (Hc : 1 <= counter o <= M /\ log_counter o = log10 (of_int (counter o))).
  { destruct H as [H|H]; apply solve_outcome in H; tauto. }
  destruct Hc as [Hc Hl]. split; [exact Hc|]. split; [exact Hl|].
  assert (H10 : (0 < ln 10)%R).
  { rewrite <- ln_1. apply ln_increasing; lra. }
  assert (H1 : (1 <= IZR (counter o))%R) by (apply IZR_le; lia).
  assert (H2 : (IZR (counter o) <= IZR M)%R) by (apply IZR_le; lia).
  unfold ideal_log10. split.
  - apply Rmult_le_pos; [|left; apply Rinv_0_lt_compat; exact H10].
    rewrite <- ln_1. destruct H1 as [H1|H1].
    + left. apply ln_increasing; lra.
    + rewrite <- H1. right. reflexivity.
  - apply Rmult_le_compat_r; [left; apply Rinv_0_lt_compat; exact H10|].
    destruct H2 as [H2|H2].
    + left. apply ln_increasing; lra.
    + rewrite H2. right. reflexivity.
Qed.

Lemma counter_bounds_witness :
  1 <= 1 <= 200 /\
  @log10 ieee coarse_libm 1%float = @log10 ieee coarse_libm (Z2float 1) /\
  (0 <= ideal_log10 (IZR 1) <= ideal_log10 (IZR 200))%R.
Proof.
  apply (@counter_bounds ieee coarse_libm 200 (@tolerance ieee) (1%float, 0%float)
           (outcome64 1%float 0%float
                       (complex64 1%float 0%float) (complex64 0%float 0%float)
                       1 (@log10 ieee coarse_libm 1%float))).
  - lia.
  - left. run.
Defined.

(** C9. The first two components of an outcome are the two components of
    the duplet the solver was given. *)
Theorem outcome_keeps_duplet {Sc : Scalar} {L : Libm Sc}
        (M : Z) (tol : F) (duplet : F * F) (o : outcome) :
  solve_cnewton M tol duplet = Return (Some o) \/
  solve_cnewton2 M tol duplet = Return (Some o) ->
  x_duplet o = fst duplet /\ y_duplet o = snd duplet.
Proof.
  intros [H|H]; apply solve_outcome in H; tauto.
Qed.

Lemma outcome_keeps_duplet_witness :
  (-2)%float = fst ((-2)%float, 2%float) /\ 2%float = snd ((-2)%float, 2%float).
Proof.
  apply (@outcome_keeps_duplet ieee coarse_libm 200 (@tolerance ieee) ((-2)%float, 2%float)
           (outcome64 (-2)%float 2%float
                       (complex64 (-0.5)%float 0x1.bb67ae8584cabp-1%float)
                       (complex64 0x1p-52%float (-0x1p-53)%float)
                       8 0x1.ce61cf8ef36fep-1%float)).
  left. run.
Defined.

(** ** Runs that use up the budget *)

Section Exhaustion.
Context {Sc : Scalar} {L : Libm Sc}.
Variable M : Z.
Variable tol : F.
Variables update func : pycomplex -> result pycomplex.
Variables x0 y0 : F.
Variables zs fs : nat -> pycomplex.
Variable last : bool.

Hypothesis steps :
  forall n : nat, Z.of_nat n < M ->
    update (zs n) = Return (zs (S n)) /\
    func (zs (S n)) = Return (fs (S n)) /\
    we_are_done tol (fs (S n)) (zs (S n)) (zs n) =
      Return (if Z.of_nat n =? M - 1 then last else false).

Lemma solve_loop_run (todo : nat) :
  forall (k : nat) (c : Z),
    Z.of_nat k + Z.of_nat todo = M - 1 ->
    solve_loop M tol update func x0 y0 (S todo) (Z.of_nat k) c (zs k) =
    Return (Some (mk_outcome x0 y0 (zs (S (k + todo))) (fs (S (k + todo)))
                             (c + 1 + Z.of_nat todo)
                             (log10 (of_int (c + 1 + Z.of_nat todo))))).
Proof.
  induction todo as [|todo IH]; intros k c Hk.
  - rewrite solve_loop_S.
    destruct (steps k) as (Hu & Hf & Hd); [lia|].
    rewrite Hu; cbn [bind]. rewrite Hf; cbn [bind]. rewrite Hd; cbn [bind].
    replace (Z.of_nat k =? M - 1) with true by (symmetry; apply Z.eqb_eq; lia).
    replace (k + 0)%nat with k by lia.
    replace (c + 1 + Z.of_nat 0) with (c + 1) by lia.
    destruct last; reflexivity.
  - rewrite solve_loop_S.
    destruct (steps k) as (Hu & Hf & Hd); [lia|].
    rewrite Hu; cbn [bind]. rewrite Hf; cbn [bind]. rewrite Hd; cbn [bind].
    replace (Z.of_nat k =? M - 1) with false by (symmetry; apply Z.eqb_neq; lia).
    replace (Z.of_nat k + 1) with (Z.of_nat (S k)) by lia.
    rewrite IH by lia.
    replace (S k + todo)%nat with (k + S todo)%nat by lia.
    replace (c + 1 + 1 + Z.of_nat todo) with (c + 1 + Z.of_nat (S todo)) by lia.
    reflexivity.
Qed.

Lemma solve_run :
  1 <= M ->
  zs O = complex x0 y0 ->
  solve M tol update func x0 y0 =
  Return (Some (mk_outcome x0 y0 (zs (Z.to_nat M)) (fs (Z.to_nat M)) M
                           (log10 (of_int M)))).
Proof.
  intros HM H0. unfold solve. rewrite <- H0.
  destruct (Z.to_nat M) as [|todo] eqn:E; [lia|].
  pose proof (solve_loop_run todo O 0) as H.
  change (Z.of_nat 0) with 0 in H.
  rewrite H by lia.
  simpl Nat.add. replace (0 + 1 + Z.of_nat todo) with M by lia.
  reflexivity.
Qed.

End Exhaustion.

(** C5. When the test fails at each of the first M - 1 steps, the solver
    returns, after the M-th, the outcome made of the duplet, the last
    iterate, the value of the function there, the counter M and its log10:
    the same outcome whether the test fails at the M-th step ([last] false,
    the budget is used up) or holds there ([last] true, convergence). *)
Theorem exhausted_outcome {Sc : Scalar} {L : Libm Sc}
        (M : Z) (tol : F) (duplet : F * F) (zs fs : nat -> pycomplex) (last : bool) :
  1 <= M ->
  (run_of Newton_Raphson f tol M duplet zs fs last ->
   solve_cnewton M tol duplet =
   Return (Some (mk_outcome (fst duplet) (snd duplet)
                            (zs (Z.to_nat M)) (fs (Z.to_nat M)) M (log10 (of_int M))))) /\
  (run_of Newton_Raphson2 f2 tol M duplet zs fs last ->
   solve_cnewton2 M tol duplet =
   Return (Some (mk_outcome (fst duplet) (snd duplet)
                            (zs (Z.to_nat M)) (fs (Z.to_nat M)) M (log10 (of_int M))))).
Proof.
  intros HM. split; intros [H0 Hsteps].
  - unfold solve_cnewton. apply (solve_run M tol _ _ _ _ zs fs last); assumption.
  - unfold solve_cnewton2. apply (solve_run M tol _ _ _ _ zs fs last); assumption.
Qed.

Lemma exhausted_outcome_witness :
  @solve_cnewton ieee coarse_libm 3 (@tolerance ieee) (5%float, 5%float) =
  Return (Some (outcome64 5%float 5%float
                  (orbit Newton_Raphson (complex64 5%float 5%float) 3)
                  (value_of f (orbit Newton_Raphson (complex64 5%float 5%float) 3))
                  3 (@log10 ieee coarse_libm (Z2float 3)))).
Proof.
  apply (proj1 (@exhausted_outcome ieee coarse_libm 3 (@tolerance ieee) (5%float, 5%float)
                  (orbit Newton_Raphson (complex64 5%float 5%float))
                  (fun n => value_of f (orbit Newton_Raphson (complex64 5%float 5%float) n))
                  false ltac:(lia))).
  split; [reflexivity|].
  intros n Hn.
  destruct n as [|[|[|n]]]; [repeat split; run .. | lia].
Defined.

(** C10. A solver given a budget M <= 0 returns None, whatever the duplet.
    Given M >= 1 it never returns None: it returns an outcome, unless the
    arithmetic raises, and what the arithmetic raises is ZeroDivisionError
    or OverflowError. *)
Theorem solver_returns {Sc : Scalar} {L : Libm Sc} (M : Z) (tol : F) (duplet : F * F) :
  (M <= 0 ->
   solve_cnewton M tol duplet = Return None /\
   solve_cnewton2 M tol duplet = Return None) /\
  (1 <= M ->
   ((exists o, solve_cnewton M tol duplet = Return (Some o)) \/
    (exists e, solve_cnewton M tol duplet = Raise e /\ arithmetic_fault e)) /\
   ((exists o, solve_cnewton2 M tol duplet = Return (Some o)) \/
    (exists e, solve_cnewton2 M tol duplet = Raise e /\ arithmetic_fault e))).
Proof.
  split; intros HM.
  - split; apply solve_no_budget; exact HM.
  - split.
    + destruct (solve_cnewton M tol duplet) as [[o|]|e] eqn:E.
      * left. exists o. reflexivity.
      * exfalso. revert E. apply solve_budget. exact HM.
      * right. exists e. split; [reflexivity|].
        apply (solve_cnewton_Raise M tol duplet). exact E.
    + destruct (solve_cnewton2 M tol duplet) as [[o|]|e] eqn:E.
      * left. exists o. reflexivity.
      * exfalso. revert E. apply solve_budget. exact HM.
      * right. exists e. split; [reflexivity|].
        apply (solve_cnewton2_Raise M tol duplet). exact E.
Qed.

(** C10, as stated, fails on binary64: from the duplet (1e200, 0) the cube
    overflows, the solver raises OverflowError, which is no division fault,
    and no outcome is returned. *)
Lemma overflow_is_no_outcome :
  (forall L : Libm ieee,
      @solve_cnewton ieee L 200 (@tolerance ieee) (Z2float (10 ^ 200), 0%float) =
      Raise OverflowError) /\
  OverflowError <> ZeroDivisionError.
Proof.
  split; [|discriminate].
  intros L. apply solve_first_fault; [lia|].
  apply Newton_Raphson_overflow.
Qed.

(** ** The evaluation of the grid *)

Section Loops.
Context {A St : Type}.

(** A loop whose body raises at one of its elements raises. *)
Lemma for_each_aborts (body : A -> St -> result St) (x : A) (pre post : list A) :
  (forall st, exists e, body x st = Raise e) ->
  forall st, exists e, for_each (pre ++ x :: post) body st = Raise e.
Proof.
  intros Hx. induction pre as [|a pre IH]; intros st; simpl.
  - destruct (Hx st) as [e He]. exists e. rewrite He. reflexivity.
  - destruct (body a st) as [st'|e]; simpl.
    + apply IH.
    + exists e. reflexivity.
Qed.

Lemma for_each_aborts_in (body : A -> St -> result St) (x : A) (xs : list A) :
  In x xs ->
  (forall st, exists e, body x st = Raise e) ->
  forall st, exists e, for_each xs body st = Raise e.
Proof.
  intros Hin Hx st. apply in_split in Hin. destruct Hin as (pre & post & ->).
  apply for_each_aborts. exact Hx.
Qed.
End Loops.

Lemma in_range (n i : Z) : 0 <= i < n -> In i (range n).
Proof.
  intros Hi. unfold range. apply in_map_iff. exists (Z.to_nat i).
  split; [lia|]. apply in_seq. lia.
Qed.

Section GridFacts.
Context {Sc : Scalar} {L : Libm Sc}.
Variable solver : F * F -> result (option outcome).
Variable label : pycomplex -> string.
Variable grid : list (list (F * F)).

(** A point at which the solver raises: the exception leaves the body. *)
Lemma evaluate_point_Raise (i j : Z) (duplet : F * F) (e : exn) (fig : figure) :
  getitem2 grid i j = Return duplet ->
  solver duplet = Raise e ->
  evaluate_point solver label grid i j fig = Raise e.
Proof.
  intros Hg Hs. unfold evaluate_point. rewrite Hg. simpl. rewrite Hs. reflexivity.
Qed.

(** A point at which the body returns has got one marker, with the
    label of the root. *)
Lemma evaluate_point_marker (i j : Z) (fig fig' : figure) :
  evaluate_point solver label grid i j fig = Return fig' ->
  exists o, scatter fig' = scatter fig ++ [(x_duplet o, y_duplet o, label (root o))].
Proof.
  unfold evaluate_point. intros H.
  inv_bind H. inv_bind H. inv_bind H. inv_bind H.
  inv_Return H. exists v1. reflexivity.
Qed.

(** And leaves the two loops: the evaluation returns no figure. *)
Lemma evaluate_grid_aborts (N i j : Z) (duplet : F * F) (e : exn) :
  0 <= i < N -> 0 <= j < N ->
  getitem2 grid i j = Return duplet ->
  solver duplet = Raise e ->
  forall fig, exists e', evaluate_grid solver label grid N fig = Raise e'.
Proof.
  intros Hi Hj Hg Hs. unfold evaluate_grid.
  apply (for_each_aborts_in _ i); [apply in_range; exact Hi|].
  apply (for_each_aborts_in _ j); [apply in_range; exact Hj|].
  intros st. exists e. apply (evaluate_point_Raise i j duplet); assumption.
Qed.
End GridFacts.

(** C2, amended. On binary64, under every libm and for every budget
    M >= 1: at a grid point where the Newton step divides by a zero value of
    the derivative -- the function and the divisor of the update ([3*z**2]
    for the cubic, the second expression of the source for the other
    polynomial) are computed at the point and the divisor is == 0 -- the
    update raises ZeroDivisionError, so does the solver, and the evaluation
    of the grid raises: no handler stands between the division and the
    loops, nothing is recorded for the point and no figure is returned. *)
Theorem division_fault_aborts (L : Libm ieee) (M N : Z) (tol tol2 : float)
        (grid : list (list (float * float))) (i j : Z) (duplet : float * float)
        (fig : @figure ieee) :
  1 <= M ->
  0 <= i < N -> 0 <= j < N ->
  getitem2 grid i j = Return duplet ->
  (forall num den : @pycomplex ieee,
      @f ieee (complex64 (fst duplet) (snd duplet)) = Return num ->
      @f_prime ieee (complex64 (fst duplet) (snd duplet)) = Return den ->
      @c_eq_int ieee den 0 = true ->
      @Newton_Raphson ieee (complex64 (fst duplet) (snd duplet)) = Raise ZeroDivisionError /\
      @solve_cnewton ieee L M tol duplet = Raise ZeroDivisionError /\
      exists e, @evaluate_grid ieee (@solve_cnewton ieee L M tol) (@classify ieee tol2)
                               grid N fig = Raise e) /\
  (forall num den : @pycomplex ieee,
      @f2 ieee (complex64 (fst duplet) (snd duplet)) = Return num ->
      @f2_prime ieee (complex64 (fst duplet) (snd duplet)) = Return den ->
      @c_eq_int ieee den 0 = true ->
      @Newton_Raphson2 ieee (complex64 (fst duplet) (snd duplet)) = Raise ZeroDivisionError /\
      @solve_cnewton2 ieee L M tol duplet = Raise ZeroDivisionError /\
      exists e, @evaluate_grid ieee (@solve_cnewton2 ieee L M tol) (@classify2 ieee tol2)
                               grid N fig = Raise e).
Proof.
  intros HM Hi Hj Hg. split; intros num den Hn Hd H0.
  - pose proof (Newton_Raphson_divides_by_zero _ _ _ Hn Hd H0) as Hu.
    assert (Hs : @solve_cnewton ieee L M tol duplet = Raise ZeroDivisionError)
      by (apply solve_first_fault; assumption).
    split; [exact Hu|]. split; [exact Hs|].
    apply (@evaluate_grid_aborts ieee _ _ _ N i j duplet ZeroDivisionError);
      assumption.
  - pose proof (Newton_Raphson2_divides_by_zero _ _ _ Hn Hd H0) as Hu.
    assert (Hs : @solve_cnewton2 ieee L M tol duplet = Raise ZeroDivisionError)
      by (apply solve_first_fault; assumption).
    split; [exact Hu|]. split; [exact Hs|].
    apply (@evaluate_grid_aborts ieee _ _ _ N i j duplet ZeroDivisionError);
      assumption.
Qed.

(** On the grid of 3 by 3 points between (-1, 1) and (1, -1): the centre
    (0, 0), where 3*z**2 is 0, for the cubic, and the point (1, 0), in the
    middle row and the last column, where the divisor of the other update
    is 315 - 1260 + 1890 - 1260 + 315 = 0. *)
Lemma division_fault_aborts_witness :
  (@Newton_Raphson ieee (complex64 0%float 0%float) = Raise ZeroDivisionError /\
   @solve_cnewton ieee coarse_libm 200 (@tolerance ieee) (0%float, 0%float) =
   Raise ZeroDivisionError /\
   exists e,
     @evaluate_grid ieee
       (@solve_cnewton ieee coarse_libm 200 (@tolerance ieee))
       (@classify ieee (@tolerance2 ieee))
       [[((-1)%float, 1%float); (0%float, 1%float); (1%float, 1%float)];
        [((-1)%float, 0%float); (0%float, 0%float); (1%float, 0%float)];
        [((-1)%float, (-1)%float); (0%float, (-1)%float); (1%float, (-1)%float)]]
       3 (@mk_figure ieee (repeat (repeat 0%float 3) 3) []) = Raise e) /\
  (@Newton_Raphson2 ieee (complex64 1%float 0%float) = Raise ZeroDivisionError /\
   @solve_cnewton2 ieee coarse_libm 200 (@tolerance ieee) (1%float, 0%float) =
   Raise ZeroDivisionError /\
   exists e,
     @evaluate_grid ieee
       (@solve_cnewton2 ieee coarse_libm 200 (@tolerance ieee))
       (@classify2 ieee (@tolerance2 ieee))
       [[((-1)%float, 1%float); (0%float, 1%float); (1%float, 1%float)];
        [((-1)%float, 0%float); (0%float, 0%float); (1%float, 0%float)];
        [((-1)%float, (-1)%float); (0%float, (-1)%float); (1%float, (-1)%float)]]
       3 (@mk_figure ieee (repeat (repeat 0%float 3) 3) []) = Raise e).
Proof.
  split.
  - apply (proj1 (division_fault_aborts coarse_libm 200 3
                    (@tolerance ieee) (@tolerance2 ieee)
                    [[((-1)%float, 1%float); (0%float, 1%float); (1%float, 1%float)];
                     [((-1)%float, 0%float); (0%float, 0%float); (1%float, 0%float)];
                     [((-1)%float, (-1)%float); (0%float, (-1)%float);
                      (1%float, (-1)%float)]]
                    1 1 (0%float, 0%float)
                    (@mk_figure ieee (repeat (repeat 0%float 3) 3) [])
                    ltac:(lia) ltac:(lia) ltac:(lia) eq_refl)
                 (complex64 (-1)%float 0%float) (complex64 0%float 0%float));
      [run | run | reflexivity].
  - apply (proj2 (division_fault_aborts coarse_libm 200 3
                    (@tolerance ieee) (@tolerance2 ieee)
                    [[((-1)%float, 1%float); (0%float, 1%float); (1%float, 1%float)];
                     [((-1)%float, 0%float); (0%float, 0%float); (1%float, 0%float)];
                     [((-1)%float, (-1)%float); (0%float, (-1)%float);
                      (1%float, (-1)%float)]]
                    1 2 (1%float, 0%float)
                    (@mk_figure ieee (repeat (repeat 0%float 3) 3) [])
                    ltac:(lia) ltac:(lia) ltac:(lia) eq_refl)
                 (complex64 128%float 0%float) (complex64 0%float 0%float));
      [run | run | reflexivity].
Defined.

(** C2, as stated, fails: on the grid of 3 by 3 points between (-2, 2) and
    (2, -2) the centre is (0, 0), where the cubic update divides by zero;
    the cell raises ZeroDivisionError and returns no figure, under the
    coarse libm, and raises under every libm. *)
Lemma centre_aborts_the_grid :
  @cubic_cell ieee coarse_libm 200 3 (@tolerance ieee) (@tolerance2 ieee)
              (@grid_point1 ieee) (@grid_point2 ieee) = Raise ZeroDivisionError /\
  (forall L : Libm ieee,
      exists e, @cubic_cell ieee L 200 3 (@tolerance ieee) (@tolerance2 ieee)
                            (@grid_point1 ieee) (@grid_point2 ieee) = Raise e).
Proof.
  split; [run|].
  intros L. unfold cubic_cell.
  assert (Hgrid : @make_grid ieee (@grid_point1 ieee) (@grid_point2 ieee) 3 =
                  Return [[((-2)%float, 2%float); (0%float, 2%float); (2%float, 2%float)];
                          [((-2)%float, 0%float); (0%float, 0%float); (2%float, 0%float)];
                          [((-2)%float, (-2)%float); (0%float, (-2)%float);
                           (2%float, (-2)%float)]])
    by run.
  rewrite Hgrid. cbn [bind].
  match goal with
  | |- context [getitem2 ?g 2 1] =>
      change (getitem2 g 2 1) with (@Return (float * float) (0%float, (-2)%float))
  end.
  cbn [bind].
  destruct (@solve_cnewton ieee L 200 (@tolerance ieee) (0%float, (-2)%float)) as [[o|]|e];
    cbn [bind from_option]; [| exists TypeError; reflexivity | exists e; reflexivity].
  destruct (@zeros ieee 3) as [m|e]; cbn [bind]; [| exists e; reflexivity].
  apply (@evaluate_grid_aborts ieee _ _ _ 3 1 1 (0%float, 0%float) ZeroDivisionError);
    [lia | lia | reflexivity |].
  apply solve_first_fault; [lia|]. apply Newton_Raphson_at_0.
Qed.

(** ** The construction of the grid *)

Lemma nth_error_range (n : Z) (k : nat) :
  (k < Z.to_nat n)%nat -> nth_error (range n) k = Some (Z.of_nat k).
Proof.
  intros Hk. unfold range.
  rewrite nth_error_map, nth_error_seq.
  destruct (Nat.ltb_spec k (Z.to_nat n)); [reflexivity | lia].
Qed.

Lemma length_range (n : Z) : List.length (range n) = Z.to_nat n.
Proof. unfold range. rewrite length_map, length_seq. reflexivity. Qed.

(** Writing into the last place the value that is there changes nothing. *)
Lemma set_last_same {A : Type} (l : list A) (v : A) :
  nth_error l (pred (List.length l)) = Some v -> set_last l v = l.
Proof.
  induction l as [|a l IH]; [reflexivity|].
  destruct l as [|b l].
  - simpl. intros H. congruence.
  - intros H. change (set_last (a :: b :: l) v) with (a :: set_last (b :: l) v).
    rewrite IH; [reflexivity | exact H].
Qed.

Lemma set_last_length {A : Type} (l : list A) (v : A) :
  List.length (set_last l v) = List.length l.
Proof.
  induction l as [|a l IH]; [reflexivity|].
  destruct l as [|b l]; [reflexivity|].
  change (set_last (a :: b :: l) v) with (a :: set_last (b :: l) v).
  simpl List.length in *. rewrite IH. reflexivity.
Qed.

Section Meshgrid.
Context {Sc : Scalar}.

Lemma combine_constant (xs : list F) (yv : F) :
  combine xs (map (fun _ => yv) xs) = map (fun xv => (xv, yv)) xs.
Proof.
  induction xs as [|x xs IH]; simpl; [reflexivity | rewrite IH; reflexivity].
Qed.

(** The grid has one row per element of [ys], and in each row one duplet
    per element of [xs]. *)
Lemma dstack_meshgrid (xs ys : list F) :
  dstack (meshgrid xs ys) = map (fun yv => map (fun xv => (xv, yv)) xs) ys.
Proof.
  unfold dstack, meshgrid. simpl fst; simpl snd.
  induction ys as [|y ys IH]; simpl; [reflexivity|].
  rewrite combine_constant, IH. reflexivity.
Qed.

(** [grid[i][j]] is made of the [j]-th abscissa and the [i]-th ordinate. *)
Lemma getitem2_grid (xs ys : list F) (i j : Z) (x y : F) :
  0 <= i -> 0 <= j ->
  nth_error xs (Z.to_nat j) = Some x ->
  nth_error ys (Z.to_nat i) = Some y ->
  getitem2 (dstack (meshgrid xs ys)) i j = Return (x, y).
Proof.
  intros Hi Hj Hx Hy. unfold getitem2.
  rewrite dstack_meshgrid, nth_error_map, Hy. simpl.
  rewrite nth_error_map, Hx. reflexivity.
Qed.
End Meshgrid.

(** In every arithmetic the last sample of [linspace] is [stop] itself, and
    so the last corner of the grid is the second corner supplied. *)
Lemma set_last_nth {A : Type} (l : list A) (v : A) :
  l <> [] -> nth_error (set_last l v) (pred (List.length l)) = Some v.
Proof.
  induction l as [|a l IH]; [congruence|]. intros _.
  destruct l as [|b l]; [reflexivity|].
  change (set_last (a :: b :: l) v) with (a :: set_last (b :: l) v).
  apply IH. discriminate.
Qed.

Lemma linspace_last {Sc : Scalar} (start stop : F) (N : Z) (l : list F) :
  2 <= N ->
  linspace start stop N = Return l ->
  nth_error l (Z.to_nat (N - 1)) = Some stop.
Proof.
  intros HN. unfold linspace.
  destruct (Z.ltb_spec N 0); [lia|].
  destruct (Z.ltb_spec 1 N); [|lia].
  intros Hl. inv_Return Hl.
  match goal with |- nth_error (set_last ?y _) _ = _ =>
    assert (Hlen : List.length y = Z.to_nat N)
  end.
  { destruct (0 <? N - 1); [destruct (feq _ _)|];
      rewrite !length_map, length_range; reflexivity. }
  replace (Z.to_nat (N - 1)) with (pred (Z.to_nat N)) by lia.
  rewrite <- Hlen. apply set_last_nth.
  intros Hnil. rewrite Hnil in Hlen. simpl in Hlen. lia.
Qed.

Lemma last_corner {Sc : Scalar} (x1 y1 x2 y2 : F) (N : Z) (grid : list (list (F * F))) :
  2 <= N ->
  make_grid (x1, y1) (x2, y2) N = Return grid ->
  getitem2 grid (N - 1) (N - 1) = Return (x2, y2).
Proof.
  intros HN H. unfold make_grid in H.
  inv_bind H. inv_bind H. inv_Return H.
  apply getitem2_grid; try lia; eapply linspace_last; eassumption.
Qed.

(** The samples of [linspace], one by one, in every arithmetic. *)
Lemma set_last_other {A : Type} (l : list A) (v : A) :
  forall k : nat, (S k < List.length l)%nat -> nth_error (set_last l v) k = nth_error l k.
Proof.
  induction l as [|a l IH]; intros k Hk; [reflexivity|].
  destruct l as [|b l]; [simpl in Hk; lia|].
  change (set_last (a :: b :: l) v) with (a :: set_last (b :: l) v).
  destruct k as [|k]; [reflexivity|].
  simpl nth_error. apply IH. simpl in Hk. simpl. lia.
Qed.

Lemma linspace_samples {Sc : Scalar} (a b : F) (N : Z) :
  2 <= N ->
  exists l,
    linspace a b N = Return l /\
    forall k, 0 <= k < N -> nth_error l (Z.to_nat k) = Some (sample a b N k).
Proof.
  intros HN. unfold linspace.
  destruct (Z.ltb_spec N 0); [lia|].
  destruct (Z.ltb_spec 0 (N - 1)); [|lia].
  destruct (Z.ltb_spec 1 N); [|lia].
  eexists. split; [reflexivity|]. intros k Hk.
  match goal with |- nth_error (set_last ?y _) _ = _ =>
    assert (Hlen : List.length y = Z.to_nat N)
      by (destruct (feq _ _); rewrite !length_map, length_range; reflexivity)
  end.
  unfold sample. destruct (Z.eqb_spec k (N - 1)) as [->|Hne].
  - replace (Z.to_nat (N - 1)) with (pred (Z.to_nat N)) by lia.
    rewrite <- Hlen. apply set_last_nth.
    intros Hnil. rewrite Hnil in Hlen. simpl in Hlen. lia.
  - rewrite set_last_other by (rewrite Hlen; lia).
    destruct (feq _ _);
      rewrite !nth_error_map, nth_error_range by lia; simpl;
      rewrite Z2Nat.id by lia; reflexivity.
Qed.

(** The grid, one duplet after the other: the column gives the abscissa
    and the row the ordinate. *)
Lemma make_grid_samples {Sc : Scalar} (x1 y1 x2 y2 : F) (N : Z) :
  2 <= N ->
  exists grid,
    make_grid (x1, y1) (x2, y2) N = Return grid /\
    forall i j, 0 <= i < N -> 0 <= j < N ->
      getitem2 grid i j = Return (sample x1 x2 N j, sample y1 y2 N i).
Proof.
  intros HN. unfold make_grid.
  destruct (linspace_samples x1 x2 N HN) as (xs & Hxs & Hx).
  destruct (linspace_samples y1 y2 N HN) as (ys & Hys & Hy).
  rewrite Hxs, Hys. cbn [bind].
  eexists. split; [reflexivity|]. intros i j Hi Hj.
  apply getitem2_grid; try lia; [apply Hx | apply Hy]; assumption.
Qed.

Lemma sample_last {Sc : Scalar} (a b : F) (N : Z) : sample a b N (N - 1) = b.
Proof. unfold sample. rewrite Z.eqb_refl. reflexivity. Qed.

Section IdealGrid.

(** Over the reals the samples are the interpolants, the first of them the
    start. *)
Lemma lerp_ideal_0 (a b : R) (N : Z) : @lerp ideal a b (IZR 0 / IZR (N - 1))%R = a.
Proof. unfold lerp. cbn. unfold Rdiv. ring. Qed.

Lemma lerp_ideal_1 (a b : R) (N : Z) :
  2 <= N -> @lerp ideal a b (IZR (N - 1) / IZR (N - 1))%R = b.
Proof.
  intros HN. unfold lerp. cbn. field. apply not_0_IZR. lia.
Qed.

Lemma sample_ideal (a b : R) (N k : Z) :
  2 <= N ->
  @sample ideal a b N k = @lerp ideal a b (IZR k / IZR (N - 1))%R.
Proof.
  intros HN. unfold sample.
  assert (Hnz : IZR (N - 1) <> 0%R) by (apply not_0_IZR; lia).
  destruct (Z.eqb_spec k (N - 1)) as [->|Hne].
  - rewrite lerp_ideal_1 by exact HN. reflexivity.
  - destruct (feq _ _); unfold lerp; cbn; field; exact Hnz.
Qed.

End IdealGrid.

(** On binary64 a sample and the interpolant can differ in the last place:
    the 40th of the 200 abscissae of the script is not
    lerp(-2, 2, 39/199). *)
Example sample_is_not_lerp :
  @sample ieee (-2)%float 2%float 200 39 = (-0x1.37510b93f0901p+0)%float /\
  @lerp ieee (-2)%float 2%float (@fdiv ieee (of_int 39) (of_int 199)) =
  (-0x1.37510b93f0902p+0)%float.
Proof. split; run. Qed.

(** On binary64 the first sample is the start, as a number, when the step
    is finite, and the very double unless the start is a zero (0 * step
    + start is 0.0 when start is -0.0 and the step is positive). *)
Lemma SFeqb_finite_refl (s : bool) (m : positive) (e : Z) :
  SFeqb (S754_finite s m e) (S754_finite s m e) = true.
Proof.
  unfold SFeqb, SFcompare. rewrite Z.compare_refl, Pos.compare_cont_refl.
  destruct s; reflexivity.
Qed.

Lemma first_sample (a b : float) (n : Z) :
  2 <= n ->
  PrimFloat.is_finite (PrimFloat.div (PrimFloat.sub b a) (Z2float (n - 1))) = true ->
  PrimFloat.eqb (@sample ieee a b n 0) a = true.
Proof.
  intros Hn Hfin. unfold sample.
  destruct (Z.eqb_spec 0 (n - 1)) as [E|_]; [lia|].
  cbn [ieee feq fadd fmul fdiv fsub of_int F].
  change (Z2float 0) with PrimFloat.zero.
  remember (Z2float (n - 1)) as d eqn:Ed. clear Ed.
  remember (PrimFloat.sub b a) as delta eqn:Edelta.
  remember (PrimFloat.div delta d) as step eqn:Estep.
  apply (f_equal Prim2SF) in Edelta. rewrite sub_spec in Edelta.
  apply (f_equal Prim2SF) in Estep. rewrite div_spec in Estep.
  unfold PrimFloat.is_finite, PrimFloat.is_nan, PrimFloat.is_infinity in Hfin.
  rewrite !eqb_spec, abs_spec in Hfin.
  change (Prim2SF PrimFloat.zero) with (S754_zero false) in *.
  change (Prim2SF infinity) with (S754_infinity false) in *.
  destruct (PrimFloat.eqb step PrimFloat.zero) eqn:Ez;
    rewrite eqb_spec in Ez;
    rewrite eqb_spec, add_spec, mul_spec, ?div_spec;
    change (Prim2SF PrimFloat.zero) with (S754_zero false) in *;
    unfold SF64add, SF64mul, SF64div, SF64sub in *;
    destruct (Prim2SF d) as [sd|sd| |sd md ed];
    destruct (Prim2SF step) as [ss|ss| |ss ms es]; try discriminate Hfin; try discriminate Ez;
    destruct (Prim2SF delta) as [sl|sl| |sl ml el]; try discriminate Estep;
    destruct (Prim2SF a) as [sa|sa| |sa ma ea];
    destruct (Prim2SF b) as [sb|sb| |sb mb eb];
    try discriminate Edelta;
    repeat match goal with s : bool |- _ => destruct s end;
    cbv [SFeqb SFcompare SFabs negb orb SFsub SFdiv SFltb xorb] in Hfin, Ez, Estep, Edelta;
    try discriminate;
    cbv [SFmul SFadd SFdiv xorb];
    try reflexivity; try apply SFeqb_finite_refl.
Qed.


Lemma first_sample_exact (a b : float) (n : Z) :
  2 <= n ->
  PrimFloat.is_finite (PrimFloat.div (PrimFloat.sub b a) (Z2float (n - 1))) = true ->
  PrimFloat.eqb a PrimFloat.zero = false ->
  @sample ieee a b n 0 = a.
Proof.
  intros Hn Hfin Ha. unfold sample.
  destruct (Z.eqb_spec 0 (n - 1)) as [E|_]; [lia|].
  cbn [ieee feq fadd fmul fdiv fsub of_int F].
  change (Z2float 0) with PrimFloat.zero.
  remember (Z2float (n - 1)) as d eqn:Ed. clear Ed.
  remember (PrimFloat.sub b a) as delta eqn:Edelta.
  remember (PrimFloat.div delta d) as step eqn:Estep.
  apply (f_equal Prim2SF) in Edelta. rewrite sub_spec in Edelta.
  apply (f_equal Prim2SF) in Estep. rewrite div_spec in Estep.
  unfold PrimFloat.is_finite, PrimFloat.is_nan, PrimFloat.is_infinity in Hfin.
  rewrite !eqb_spec, abs_spec in Hfin. rewrite eqb_spec in Ha.
  change (Prim2SF PrimFloat.zero) with (S754_zero false) in *.
  change (Prim2SF infinity) with (S754_infinity false) in *.
  destruct (PrimFloat.eqb step PrimFloat.zero) eqn:Ez;
    rewrite eqb_spec in Ez;
    apply Prim2SF_inj;
    rewrite add_spec, mul_spec, ?div_spec;
    change (Prim2SF PrimFloat.zero) with (S754_zero false) in *;
    unfold SF64add, SF64mul, SF64div, SF64sub in *;
    destruct (Prim2SF d) as [sd|sd| |sd md ed];
    destruct (Prim2SF step) as [ss|ss| |ss ms es]; try discriminate Hfin; try discriminate Ez;
    destruct (Prim2SF delta) as [sl|sl| |sl ml el]; try discriminate Estep;
    destruct (Prim2SF a) as [sa|sa| |sa ma ea];
    destruct (Prim2SF b) as [sb|sb| |sb mb eb];
    try discriminate Edelta;
    repeat match goal with s : bool |- _ => destruct s end;
    cbv [SFeqb SFcompare SFabs negb orb SFsub SFdiv SFltb xorb] in Hfin, Ez, Estep, Edelta, Ha;
    try discriminate;
    cbv [SFmul SFadd SFdiv xorb];
    reflexivity.
Qed.

(** C3, amended. For N >= 2 and i, j in [0, N) the grid is built and
    grid[i][j] = (X_j, Y_i): the column index j selects the abscissa and the
    row index i the ordinate, where X_k and Y_k are the k-th of the N
    samples between x1 and x2, and between y1 and y2, as linspace computes
    them, in every arithmetic and so on binary64: k * step + start with
    step = (stop - start) / (N - 1), the last sample being stop itself. Hence
    grid[N-1][N-1] = (x2, y2), and the other corners are made of x2, y2 and
    the first samples. On binary64 a first sample is == start when the step
    is finite, and is the very double unless start is a zero. Over the reals
    the k-th sample is lerp(start, stop, k/(N-1)) and the four corners are
    made of the supplied coordinates. On binary64, for the two grids of the
    script, of 200 by 200 points, the four corners are made of the supplied
    coordinates and every sample is within 2^-51 of the interpolant. *)
Theorem grid_interpolates (n i j : Z) :
  2 <= n -> 0 <= i < n -> 0 <= j < n ->
  (forall (Sc : Scalar) (x1 y1 x2 y2 : @F Sc),
      exists grid,
        @make_grid Sc (x1, y1) (x2, y2) n = Return grid /\
        getitem2 grid i j = Return (sample x1 x2 n j, sample y1 y2 n i) /\
        getitem2 grid 0 0 = Return (sample x1 x2 n 0, sample y1 y2 n 0) /\
        getitem2 grid 0 (n - 1) = Return (x2, sample y1 y2 n 0) /\
        getitem2 grid (n - 1) 0 = Return (sample x1 x2 n 0, y2) /\
        getitem2 grid (n - 1) (n - 1) = Return (x2, y2)) /\
  (forall start stop : float,
      @isfinite ieee (@fdiv ieee (@fsub ieee stop start) (of_int (n - 1))) = true ->
      @feq ieee (@sample ieee start stop n 0) start = true /\
      (@feq ieee start (of_int 0) = false -> @sample ieee start stop n 0 = start)) /\
  (forall x1 y1 x2 y2 : R,
      @sample ideal x1 x2 n j =
      @lerp ideal x1 x2 (@fdiv ideal (of_int j) (of_int (n - 1))) /\
      @sample ideal y1 y2 n i =
      @lerp ideal y1 y2 (@fdiv ideal (of_int i) (of_int (n - 1))) /\
      exists grid,
        @make_grid ideal (x1, y1) (x2, y2) n = Return grid /\
        getitem2 grid i j =
        Return (@lerp ideal x1 x2 (@fdiv ideal (of_int j) (of_int (n - 1))),
                @lerp ideal y1 y2 (@fdiv ideal (of_int i) (of_int (n - 1)))) /\
        getitem2 grid 0 0 = Return (x1, y1) /\
        getitem2 grid 0 (n - 1) = Return (x2, y1) /\
        getitem2 grid (n - 1) 0 = Return (x1, y2) /\
        getitem2 grid (n - 1) (n - 1) = Return (x2, y2)) /\
  (exists grid,
      @make_grid ieee (@grid_point1 ieee) (@grid_point2 ieee) N = Return grid /\
      getitem2 grid 0 0 = Return ((-2)%float, 2%float) /\
      getitem2 grid 0 (N - 1) = Return (2%float, 2%float) /\
      getitem2 grid (N - 1) 0 = Return ((-2)%float, (-2)%float) /\
      getitem2 grid (N - 1) (N - 1) = Return (2%float, (-2)%float) /\
      @within ieee 0x1p-51%float (-2)%float 2%float N = true /\
      @within ieee 0x1p-51%float 2%float (-2)%float N = true) /\
  (exists grid,
      @make_grid ieee (@zoom_point1 ieee) (@zoom_point2 ieee) N = Return grid /\
      getitem2 grid 0 0 = Return (@zoom_point1 ieee) /\
      getitem2 grid 0 (N - 1) = Return (fst (@zoom_point2 ieee), snd (@zoom_point1 ieee)) /\
      getitem2 grid (N - 1) 0 = Return (fst (@zoom_point1 ieee), snd (@zoom_point2 ieee)) /\
      getitem2 grid (N - 1) (N - 1) = Return (@zoom_point2 ieee) /\
      @within ieee 0x1p-51%float (fst (@zoom_point1 ieee)) (fst (@zoom_point2 ieee)) N = true /\
      @within ieee 0x1p-51%float (snd (@zoom_point1 ieee)) (snd (@zoom_point2 ieee)) N = true).
Proof.
  intros Hn Hi Hj.
  assert (Hany : forall (Sc : Scalar) (x1 y1 x2 y2 : @F Sc),
             exists grid,
               @make_grid Sc (x1, y1) (x2, y2) n = Return grid /\
               getitem2 grid i j = Return (sample x1 x2 n j, sample y1 y2 n i) /\
               getitem2 grid 0 0 = Return (sample x1 x2 n 0, sample y1 y2 n 0) /\
               getitem2 grid 0 (n - 1) = Return (x2, sample y1 y2 n 0) /\
               getitem2 grid (n - 1) 0 = Return (sample x1 x2 n 0, y2) /\
               getitem2 grid (n - 1) (n - 1) = Return (x2, y2)).
  { intros Sc x1 y1 x2 y2.
    destruct (make_grid_samples x1 y1 x2 y2 n Hn) as (grid & Hg & Hat).
    exists grid. split; [exact Hg|].
    split; [apply Hat; assumption|].
    split; [apply Hat; lia|].
    split; [rewrite Hat by lia; rewrite sample_last; reflexivity|].
    split; [rewrite Hat by lia; rewrite sample_last; reflexivity|].
    rewrite Hat by lia. rewrite !sample_last. reflexivity. }
  split; [exact Hany|]. split; [|split; [|split]].
  - intros start stop Hfin. split.
    + apply first_sample; assumption.
    + intros H0. apply first_sample_exact; assumption.
  - intros x1 y1 x2 y2.
    split; [apply sample_ideal; exact Hn|].
    split; [apply sample_ideal; exact Hn|].
    destruct (Hany ideal x1 y1 x2 y2) as (grid & Hg & Hij & H00 & H01 & H10 & H11).
    exists grid. split; [exact Hg|].
    rewrite !(sample_ideal _ _ n) in * by exact Hn.
    rewrite !lerp_ideal_0 in *.
    repeat split; assumption.
  - eexists. split; [reflexivity|]. repeat split; run.
  - eexists. split; [reflexivity|]. repeat split; run.
Qed.

(** On binary64, the grid of 3 by 3 points of the script's window. *)
Lemma grid_interpolates_witness :
  exists grid,
    @make_grid ieee ((-2)%float, 2%float) (2%float, (-2)%float) 3 = Return grid /\
    getitem2 grid 0 1 = Return (0%float, 2%float) /\
    getitem2 grid 0 0 = Return ((-2)%float, 2%float) /\
    getitem2 grid 0 (3 - 1) = Return (2%float, 2%float) /\
    getitem2 grid (3 - 1) 0 = Return ((-2)%float, (-2)%float) /\
    getitem2 grid (3 - 1) (3 - 1) = Return (2%float, (-2)%float).
Proof.
  exact (proj1 (grid_interpolates 3 0 1 ltac:(lia) ltac:(lia) ltac:(lia))
               ieee (-2)%float 2%float 2%float (-2)%float).
Defined.

(** C3, as stated, fails: on the grid of 2 by 2 points between (-2, 2) and
    (2, -2), grid[0][1] is (2, 2), the second abscissa with the first
    ordinate, where the claim has (lerp(-2, 2, 0/1), lerp(2, -2, 1/1)),
    that is (-2, -2). This is on binary64. *)
Lemma row_index_selects_ordinate :
  exists grid,
    @make_grid ieee (@grid_point1 ieee) (@grid_point2 ieee) 2 = Return grid /\
    getitem2 grid 0 1 = Return (2%float, 2%float) /\
    (@lerp ieee (-2)%float 2%float (@fdiv ieee (of_int 0) (of_int (2 - 1))),
     @lerp ieee 2%float (-2)%float (@fdiv ieee (of_int 1) (of_int (2 - 1)))) =
    ((-2)%float, (-2)%float) /\
    PrimFloat.eqb 2%float (-2)%float = false.
Proof.
  eexists. split; [reflexivity|].
  repeat split; run.
Qed.

(** ** Classification *)

Section Classification.
Context {Sc : Scalar}.

(** A policy that ends with an unconditional predicate labels every
    root. *)
Lemma first_match_fallback (ps : policy) (l : string) (root : pycomplex) :
  first_match (ps ++ [(fun _ => true, l)]) root <> None.
Proof.
  induction ps as [|[holds l'] ps IH]; simpl.
  - discriminate.
  - destruct (holds root); [discriminate | exact IH].
Qed.

Lemma classify_first_match (eps2 : F) (root : pycomplex) :
  first_match (cubic_policy eps2) root = Some (classify eps2 root).
Proof.
  unfold classify, cubic_policy, first_match, near.
  repeat (match goal with |- context [if ?c then _ else _] => destruct c end;
          try reflexivity).
Qed.

Lemma classify2_first_match (eps2 : F) (root : pycomplex) :
  first_match (degree9_policy eps2) root = Some (classify2 eps2 root).
Proof.
  unfold classify2, degree9_policy, first_match, near, near_opposite.
  cbv zeta.
  repeat (match goal with |- context [if ?c then _ else _] => destruct c end;
          try reflexivity).
Qed.

End Classification.

(** C7. The chain of tests of each polynomial is the ordered policy: the
    label of a root is that of the first predicate, in the fixed order,
    that holds of it; the last predicate of each policy holds of every
    root; so every root has exactly one label. *)
Theorem one_label {Sc : Scalar} (eps2 : F) (root : pycomplex) :
  first_match (cubic_policy eps2) root = Some (classify eps2 root) /\
  first_match (degree9_policy eps2) root = Some (classify2 eps2 root) /\
  (exists ps, cubic_policy eps2 = ps ++ [(fun _ => true, "r"%string)]) /\
  (exists ps, degree9_policy eps2 = ps ++ [(fun _ => true, "pink"%string)]) /\
  (exists! l, first_match (cubic_policy eps2) root = Some l) /\
  (exists! l, first_match (degree9_policy eps2) root = Some l).
Proof.
  split; [apply classify_first_match|].
  split; [apply classify2_first_match|].
  split; [eexists [_; _]; reflexivity|].
  split; [eexists [_; _; _; _; _; _; _; _]; reflexivity|].
  split.
  - exists (classify eps2 root). split; [apply classify_first_match|].
    intros l Hl. rewrite classify_first_match in Hl. congruence.
  - exists (classify2 eps2 root). split; [apply classify2_first_match|].
    intros l Hl. rewrite classify2_first_match in Hl. congruence.
Qed.

(** ** The updates over the reals *)

Section IdealUpdates.

Local Abbreviation Complex := (@pycomplex ideal).

Ltac components := cbv - [Rplus Rminus Rmult Rdiv Rinv Ropp IZR]; f_equal; ring.

(** No power overflows. *)
Lemma c_pow_ideal (z : Complex) (n : positive) : @c_pow ideal z n = Return (c_powu z n).
Proof. reflexivity. Qed.

Lemma f_ideal (z : Complex) : @f ideal z = Return (peval cubic z).
Proof.
  unfold f. rewrite c_pow_ideal. cbn [bind]. f_equal.
  destruct z as [a b]. components.
Qed.

Lemma f2_ideal (z : Complex) : @f2 ideal z = Return (peval degree9 z).
Proof.
  unfold f2. rewrite !c_pow_ideal. cbn [bind]. f_equal.
  destruct z as [a b]. components.
Qed.

Lemma cubic_denominator (z : Complex) :
  c_prod (c_of_int 3) (c_powu z 2) = peval (pderiv cubic) z.
Proof. destruct z as [a b]. components. Qed.

Lemma cubic_numerator (z : Complex) :
  c_diff (c_powu z 3) (c_of_int 1) = peval cubic z.
Proof. destruct z as [a b]. components. Qed.

Lemma degree9_numerator (z : Complex) :
  c_sum (c_diff (c_sum (c_diff (c_prod (c_of_int 35) (c_powu z 9))
                               (c_prod (c_of_int 180) (c_powu z 7)))
                       (c_prod (c_of_int 378) (c_powu z 5)))
                (c_prod (c_of_int 420) (c_powu z 3)))
        (c_prod (c_of_int 315) z) = peval degree9 z.
Proof. destruct z as [a b]. components. Qed.

Lemma degree9_denominator (z : Complex) :
  c_sum (c_diff (c_sum (c_diff (c_prod (c_of_int (35 * 9)) (c_powu z 8))
                               (c_prod (c_of_int (180 * 7)) (c_powu z 6)))
                       (c_prod (c_of_int (378 * 5)) (c_powu z 4)))
                (c_prod (c_of_int (420 * 3)) (c_powu z 2)))
        (c_of_int 315) = peval (pderiv degree9) z.
Proof. destruct z as [a b]. components. Qed.

End IdealUpdates.

Section IdealQuotient.

Local Abbreviation Complex := (@pycomplex ideal).

(** Smith's quotient is the quotient, when the divisor is not 0. *)
Lemma c_quot_ideal (a b : Complex) :
  b <> c_of_int 0 -> @c_quot ideal a b = Return (c_div a b).
Proof.
  destruct a as [ar ai], b as [br bi]. intros Hb.
  assert (Hnz : (br <> 0 \/ bi <> 0)%R).
  { destruct (Req_dec_T br 0) as [->|]; [|left; assumption].
    destruct (Req_dec_T bi 0) as [->|]; [|right; assumption].
    exfalso. apply Hb. reflexivity. }
  assert (Hsq : (br * br + bi * bi <> 0)%R) by (destruct Hnz; nra).
  unfold c_quot, c_div, c_of_int. cbn. unfold Rltb, Rleb, Reqb.
  repeat match goal with
         | |- context [Rlt_dec ?x ?y] => destruct (Rlt_dec x y)
         | |- context [Rle_dec ?x ?y] => destruct (Rle_dec x y)
         | |- context [Req_dec_T ?x ?y] => destruct (Req_dec_T x y)
         end;
    try (exfalso; lra);
    try (f_equal; f_equal; field; repeat split; try assumption; try lra; try nra).
  all: try (exfalso; destruct Hnz; lra).
Qed.

(** And it raises when the divisor is 0. *)
Lemma c_quot_ideal_0 (a : Complex) : @c_quot ideal a (c_of_int 0) = Raise ZeroDivisionError.
Proof.
  unfold c_quot, c_of_int. cbn. unfold Rltb, Rleb, Reqb.
  repeat match goal with
         | |- context [Rlt_dec ?x ?y] => destruct (Rlt_dec x y)
         | |- context [Rle_dec ?x ?y] => destruct (Rle_dec x y)
         | |- context [Req_dec_T ?x ?y] => destruct (Req_dec_T x y)
         end;
    try reflexivity; exfalso; lra.
Qed.

Lemma Newton_Raphson_ideal (z : Complex) :
  peval (pderiv cubic) z <> c_of_int 0 ->
  @Newton_Raphson ideal z =
  Return (c_diff z (c_div (peval cubic z) (peval (pderiv cubic) z))).
Proof.
  intros Hd. unfold Newton_Raphson. rewrite !c_pow_ideal. cbn [bind].
  rewrite cubic_numerator, cubic_denominator, c_quot_ideal by exact Hd.
  reflexivity.
Qed.

Lemma Newton_Raphson2_ideal (z : Complex) :
  peval (pderiv degree9) z <> c_of_int 0 ->
  @Newton_Raphson2 ideal z =
  Return (c_diff z (c_div (peval degree9 z) (peval (pderiv degree9) z))).
Proof.
  intros Hd. unfold Newton_Raphson2. rewrite !c_pow_ideal. cbn [bind].
  rewrite degree9_numerator, degree9_denominator, c_quot_ideal by exact Hd.
  reflexivity.
Qed.

(** Nothing divided by something is nothing, and taking nothing away
    changes nothing. *)
Lemma c_div_0 (b : Complex) : c_div (c_of_int 0) b = c_of_int 0.
Proof.
  destruct b as [br bi]. unfold c_div, c_of_int. cbn. f_equal; unfold Rdiv; ring.
Qed.

Lemma c_diff_0 (z : Complex) : c_diff z (c_of_int 0) = z.
Proof. destruct z as [a b]. unfold c_diff, c_of_int. cbn. f_equal; ring. Qed.

(** The distance of a complex number to itself is below 1e-9. *)
Lemma c_abs_diff_same (z : Complex) :
  @c_abs ideal ideal_libm (c_diff z z) = Return 0%R /\
  @flt ideal 0%R (@tolerance ideal) = true.
Proof.
  split.
  - destruct z as [a b]. unfold c_abs, c_diff. cbn. f_equal.
    unfold ideal_hypot.
    replace ((a - a) * (a - a) + (b - b) * (b - b))%R with 0%R by ring.
    apply sqrt_0.
  - unfold tolerance. cbn. change (10 ^ Z.of_nat 9) with 1000000000.
    unfold Rltb. destruct (Rlt_dec 0 (1 / 1000000000)); [reflexivity|].
    exfalso. lra.
Qed.

End IdealQuotient.

(** ** The two polynomials over the reals *)

Section IdealRoots.

Local Abbreviation Complex := (@pycomplex ideal).

Ltac reals := cbv - [Rplus Rminus Rmult Rdiv Rinv Ropp IZR].

Lemma square_zero (x : R) : (x * x = 0)%R -> x = 0%R.
Proof. intros H. apply Rmult_integral in H. tauto. Qed.

(** Two reals with equal squares and product zero are both zero. *)
Lemma both_zero (x y : R) :
  (x * x - y * y = 0)%R -> (x * y = 0)%R -> x = 0%R /\ y = 0%R.
Proof.
  intros Hs Hp. apply Rmult_integral in Hp. destruct Hp as [-> | ->].
  - split; [reflexivity|]. apply square_zero. lra.
  - split; [|reflexivity]. apply square_zero. lra.
Qed.

Lemma complex_eq_dec (z w : Complex) : z = w \/ z <> w.
Proof.
  destruct z as [a b], w as [c d].
  destruct (Req_dec_T a c) as [->|Hac]; [|right; congruence].
  destruct (Req_dec_T b d) as [->|Hbd]; [left; reflexivity | right; congruence].
Qed.

(** 3z^2 vanishes at 0 only. *)
Lemma cubic_derivative_zero (z : Complex) :
  peval (pderiv cubic) z = c_of_int 0 <-> z = c_of_int 0.
Proof.
  destruct z as [a b]. reals. split; intros H; injection H as Hre Him.
  - assert (H1 : (a * a - b * b = 0)%R) by (ring_simplify in Hre; lra).
    assert (H2 : (a * b = 0)%R) by (ring_simplify in Him; lra).
    destruct (both_zero a b H1 H2) as [-> ->]. reflexivity.
  - subst. f_equal; ring.
Qed.

(** The derivative of the other polynomial is 315 (z^2 - 1)^4: it vanishes
    at 1 and at -1 only. *)
Lemma degree9_derivative_zero (z : Complex) :
  peval (pderiv degree9) z = c_of_int 0 <->
  z = @complex ideal 1%R 0%R \/ z = @complex ideal (-1)%R 0%R.
Proof.
  destruct z as [a b]. split.
  - reals. intros H. injection H as Hre Him.
    pose (u := (a * a - b * b - 1)%R). pose (v := (2 * a * b)%R).
    pose (p := (u * u - v * v)%R). pose (q := (2 * u * v)%R).
    assert (Hp : (p * p - q * q = 0)%R).
    { apply Rmult_eq_reg_l with 315%R; [|lra].
      rewrite Rmult_0_r. etransitivity; [|exact Hre]. unfold p, q, u, v. ring. }
    assert (Hq : (p * q = 0)%R).
    { apply Rmult_eq_reg_l with 630%R; [|lra].
      rewrite Rmult_0_r. etransitivity; [|exact Him]. unfold p, q, u, v. ring. }
    destruct (both_zero p q Hp Hq) as [Hp0 Hq0].
    assert (Huv : (u * v = 0)%R) by (unfold q in Hq0; lra).
    destruct (both_zero u v Hp0 Huv) as [Hu Hv].
    assert (Hab : (a * b = 0)%R) by (unfold v in Hv; lra).
    apply Rmult_integral in Hab. destruct Hab as [Ha|Hb].
    + exfalso. subst a. unfold u in Hu.
      assert (0 <= b * b)%R by apply Rle_0_sqr. lra.
    + subst b. unfold u in Hu.
      assert (Ha : ((a - 1) * (a + 1) = 0)%R) by lra.
      apply Rmult_integral in Ha. destruct Ha as [Ha|Ha].
      * left. f_equal. lra.
      * right. f_equal. lra.
  - intros [H|H]; injection H as -> ->; reals; f_equal; ring.
Qed.

Lemma Newton_Raphson_singular (z : Complex) :
  peval (pderiv cubic) z = c_of_int 0 ->
  @Newton_Raphson ideal z = Raise ZeroDivisionError.
Proof.
  intros Hd. unfold Newton_Raphson. rewrite !c_pow_ideal. cbn [bind].
  rewrite cubic_denominator, Hd, c_quot_ideal_0. reflexivity.
Qed.

Lemma Newton_Raphson2_singular (z : Complex) :
  peval (pderiv degree9) z = c_of_int 0 ->
  @Newton_Raphson2 ideal z = Raise ZeroDivisionError.
Proof.
  intros Hd. unfold Newton_Raphson2. rewrite !c_pow_ideal. cbn [bind].
  rewrite degree9_denominator, Hd, c_quot_ideal_0. reflexivity.
Qed.

End IdealRoots.

(** C6, amended. 3z^2 and 315z^8 - 1260z^6 + 1890z^4 - 1260z^2 + 315 are
    the formal derivatives of z^3 - 1 and of 35z^9 - 180z^7 + 378z^5 -
    420z^3 + 315z. On binary64, at every z where the powers are computed
    without overflow and the computed value of the divisor is not == 0, the
    update of the cubic returns z - (z**3 - 1)/(3*z**2) and that of the
    other polynomial z minus the quotient of its two expressions, the
    operations being those of the floating-point complex arithmetic. Over
    the reals the functions and the divisors are the polynomials and their
    derivatives, and where the derivative is not 0 each update is z minus
    the quotient of the polynomial by its derivative. *)
Theorem newton_updates (z : @pycomplex ieee) (w : @pycomplex ideal) :
  (pderiv cubic = [0; 0; 3] /\
   pderiv degree9 = [315; 0; -1260; 0; 1890; 0; -1260; 0; 315]) /\
  (forall num den : @pycomplex ieee,
      @f ieee z = Return num ->
      @f_prime ieee z = Return den ->
      @c_eq_int ieee den 0 = false ->
      exists q, @c_quot ieee num den = Return q /\
                @Newton_Raphson ieee z = Return (c_diff z q)) /\
  (forall num den : @pycomplex ieee,
      @f2 ieee z = Return num ->
      @f2_prime ieee z = Return den ->
      @c_eq_int ieee den 0 = false ->
      exists q, @c_quot ieee num den = Return q /\
                @Newton_Raphson2 ieee z = Return (c_diff z q)) /\
  (@f ideal w = Return (peval cubic w) /\
   @f_prime ideal w = Return (peval (pderiv cubic) w) /\
   (peval (pderiv cubic) w <> c_of_int 0 ->
    @Newton_Raphson ideal w =
    Return (c_diff w (c_div (peval cubic w) (peval (pderiv cubic) w))))) /\
  (@f2 ideal w = Return (peval degree9 w) /\
   @f2_prime ideal w = Return (peval (pderiv degree9) w) /\
   (peval (pderiv degree9) w <> c_of_int 0 ->
    @Newton_Raphson2 ideal w =
    Return (c_diff w (c_div (peval degree9 w) (peval (pderiv degree9) w))))).
Proof.
  split; [split; reflexivity|].
  split; [intros num den; apply Newton_Raphson_divides|].
  split; [intros num den; apply Newton_Raphson2_divides|].
  split; (split; [|split]).
  - apply f_ideal.
  - unfold f_prime. rewrite c_pow_ideal. cbn [bind].
    rewrite cubic_denominator. reflexivity.
  - apply Newton_Raphson_ideal.
  - apply f2_ideal.
  - unfold f2_prime. rewrite !c_pow_ideal. cbn [bind].
    rewrite degree9_denominator. reflexivity.
  - apply Newton_Raphson2_ideal.
Qed.

(** At 2 on binary64: z**3 - 1 = 7 and 3*z**2 = 12, and for the other
    polynomial 4246 and 25515. *)
Lemma newton_updates_witness :
  (exists q, @c_quot ieee (complex64 7%float 0%float) (complex64 12%float 0%float) =
             Return q /\
             @Newton_Raphson ieee (complex64 2%float 0%float) =
             Return (c_diff (complex64 2%float 0%float) q)) /\
  (exists q, @c_quot ieee (complex64 4246%float 0%float) (complex64 25515%float 0%float) =
             Return q /\
             @Newton_Raphson2 ieee (complex64 2%float 0%float) =
             Return (c_diff (complex64 2%float 0%float) q)).
Proof.
  destruct (newton_updates (complex64 2%float 0%float) (@complex ideal 2%R 0%R))
    as (_ & H3 & H9 & _).
  split.
  - apply H3; [run | run | reflexivity].
  - apply H9; [run | run | reflexivity].
Defined.

(** C6, as stated, fails on binary64. The double 2^-600 is not 0 and the
    derivative of the cubic there is 3 * 2^-1200, not 0; but z**2
    underflows to 0 and the update raises ZeroDivisionError. The double
    next but one above 1 is 1 + 2^-51, where the derivative of the other
    polynomial, 315 (z^2 - 1)^4, is not 0; but its computed value is 0 and
    the update raises ZeroDivisionError. And at the double next to 10^200,
    which is not 0, the only place where the derivative of the cubic is,
    z**3 overflows and the update raises OverflowError. *)
Lemma derivative_value_vanishes :
  (Prim2SF 0x1p-600%float = S754_finite false 4503599627370496 (-652) /\
   peval (pderiv cubic) (@complex ideal (/ 2 ^ 600)%R 0%R) <> c_of_int 0 /\
   @Newton_Raphson ieee (complex64 0x1p-600%float 0%float) = Raise ZeroDivisionError) /\
  (Prim2SF 0x1.0000000000002p+0%float = S754_finite false 4503599627370498 (-52) /\
   peval (pderiv degree9) (@complex ideal (1 + / 2 ^ 51)%R 0%R) <> c_of_int 0 /\
   @Newton_Raphson2 ieee (complex64 0x1.0000000000002p+0%float 0%float) =
   Raise ZeroDivisionError) /\
  (PrimFloat.eqb (Z2float (10 ^ 200)) 0%float = false /\
   (forall v : @pycomplex ideal, peval (pderiv cubic) v = c_of_int 0 -> v = c_of_int 0) /\
   @Newton_Raphson ieee (complex64 (Z2float (10 ^ 200)) 0%float) = Raise OverflowError).
Proof.
  assert (Hpos : forall n : nat, (0 < / 2 ^ n)%R)
    by (intros n; apply Rinv_0_lt_compat, pow_lt; lra).
  split; [|split]; [split; [|split] | split; [|split] | split; [|split]].
  - run.
  - intros H. apply cubic_derivative_zero in H. injection H as H.
    pose proof (Hpos 600%nat). lra.
  - run.
  - run.
  - intros H. apply degree9_derivative_zero in H.
    pose proof (Hpos 51%nat).
    destruct H as [H|H]; injection H as H; lra.
  - run.
  - run.
  - intros v. apply cubic_derivative_zero.
  - apply Newton_Raphson_overflow.
Qed.

(** C8. Over the reals, a root of the cubic at which the derivative is not
    0 is a fixed point of the update: the update returns the root itself,
    at distance 0 < 1e-9 of it. On binary64 the update of 1+0i is 1+0i. *)
Theorem roots_are_fixed_points (r : @pycomplex ideal) :
  peval cubic r = c_of_int 0 ->
  peval (pderiv cubic) r <> c_of_int 0 ->
  (@Newton_Raphson ideal r = Return r /\
   exists a, @c_abs ideal ideal_libm (c_diff r r) = Return a /\
             @flt ideal a (@tolerance ideal) = true) /\
  @Newton_Raphson ieee (complex64 1%float 0%float) = Return (complex64 1%float 0%float).
Proof.
  intros Hroot Hd. split; [split|].
  - rewrite Newton_Raphson_ideal by exact Hd.
    rewrite Hroot, c_div_0, c_diff_0. reflexivity.
  - exists 0%R. apply c_abs_diff_same.
  - apply Newton_Raphson_at_1.
Qed.

Lemma roots_are_fixed_points_witness :
  (@Newton_Raphson ideal (@complex ideal 1%R 0%R) = Return (@complex ideal 1%R 0%R) /\
   exists a, @c_abs ideal ideal_libm
               (c_diff (@complex ideal 1%R 0%R) (@complex ideal 1%R 0%R)) = Return a /\
             @flt ideal a (@tolerance ideal) = true) /\
  @Newton_Raphson ieee (complex64 1%float 0%float) = Return (complex64 1%float 0%float).
Proof.
  apply (roots_are_fixed_points (@complex ideal 1%R 0%R)).
  - cbv - [Rplus Rminus Rmult Rdiv Rinv Ropp IZR]. f_equal; ring.
  - cbv - [Rplus Rminus Rmult Rdiv Rinv Ropp IZR]. intros H. injection H as Hre Him. lra.
Defined.


(** * More of the code *)

(** ** The step at which a solver returns *)

Section FirstHit.
Context {Sc : Scalar} {L : Libm Sc}.
Variable M : Z.
Variable tol : F.
Variables update func : pycomplex -> result pycomplex.
Variables x0 y0 : F.
Variables zs fs : nat -> pycomplex.
Variable k : nat.

Hypothesis in_budget : Z.of_nat k <= M.

Hypothesis steps :
  forall n : nat, (n < k)%nat ->
    update (zs n) = Return (zs (S n)) /\
    func (zs (S n)) = Return (fs (S n)) /\
    we_are_done tol (fs (S n)) (zs (S n)) (zs n) = Return (Nat.eqb (S n) k).

(** [d] failing steps, then the step at which the test holds. *)
Lemma solve_loop_hit (d : nat) :
  forall (todo n : nat) (c : Z),
    (n + S d = k)%nat -> (d < todo)%nat ->
    solve_loop M tol update func x0 y0 todo (Z.of_nat n) c (zs n) =
    Return (Some (mk_outcome x0 y0 (zs k) (fs k) (c + Z.of_nat (S d))
                             (log10 (of_int (c + Z.of_nat (S d)))))).
Proof.
  induction d as [|d IH]; intros todo n c Hn Htodo.
  - destruct todo as [|todo]; [lia|]. rewrite solve_loop_S.
    destruct (steps n) as (Hu & Hf & Hd); [lia|].
    rewrite Hu; cbn [bind]. rewrite Hf; cbn [bind]. rewrite Hd; cbn [bind].
    replace (S n) with k by lia. rewrite Nat.eqb_refl.
    replace (c + Z.of_nat 1) with (c + 1) by lia. reflexivity.
  - destruct todo as [|todo]; [lia|]. rewrite solve_loop_S.
    destruct (steps n) as (Hu & Hf & Hd); [lia|].
    rewrite Hu; cbn [bind]. rewrite Hf; cbn [bind]. rewrite Hd; cbn [bind].
    replace (Nat.eqb (S n) k) with false by (symmetry; apply Nat.eqb_neq; lia).
    replace (Z.of_nat n =? M - 1) with false by (symmetry; apply Z.eqb_neq; lia).
    replace (Z.of_nat n + 1) with (Z.of_nat (S n)) by lia.
    rewrite (IH todo (S n) (c + 1)) by lia.
    replace (c + 1 + Z.of_nat (S d)) with (c + Z.of_nat (S (S d))) by lia.
    reflexivity.
Qed.

Lemma solve_hit :
  (1 <= k)%nat ->
  zs O = complex x0 y0 ->
  solve M tol update func x0 y0 =
  Return (Some (mk_outcome x0 y0 (zs k) (fs k) (Z.of_nat k)
                           (log10 (of_int (Z.of_nat k))))).
Proof.
  intros Hk H0. unfold solve. rewrite <- H0.
  pose proof (solve_loop_hit (pred k) (Z.to_nat M) O 0) as H.
  change (Z.of_nat 0) with 0 in H.
  rewrite H by lia.
  replace (0 + Z.of_nat (S (pred k))) with (Z.of_nat k) by lia.
  reflexivity.
Qed.

End FirstHit.

(** X1. A solver returns at the first step at which the test holds: when
    the test fails at the steps before the k-th and holds at the k-th, with
    k within the budget, the outcome has the counter k, the k-th iterate and
    the value of the function there. *)
Theorem returns_at_first_hit {Sc : Scalar} {L : Libm Sc}
        (M : Z) (tol : F) (duplet : F * F) (zs fs : nat -> pycomplex) (k : nat) :
  (1 <= k)%nat -> Z.of_nat k <= M ->
  (first_holds_at Newton_Raphson f tol duplet zs fs k ->
   solve_cnewton M tol duplet =
   Return (Some (mk_outcome (fst duplet) (snd duplet) (zs k) (fs k) (Z.of_nat k)
                            (log10 (of_int (Z.of_nat k)))))) /\
  (first_holds_at Newton_Raphson2 f2 tol duplet zs fs k ->
   solve_cnewton2 M tol duplet =
   Return (Some (mk_outcome (fst duplet) (snd duplet) (zs k) (fs k) (Z.of_nat k)
                            (log10 (of_int (Z.of_nat k)))))).
Proof.
  intros Hk HM. split; intros [H0 Hsteps].
  - unfold solve_cnewton. apply (solve_hit M tol _ _ _ _ zs fs k); assumption.
  - unfold solve_cnewton2. apply (solve_hit M tol _ _ _ _ zs fs k); assumption.
Qed.

Lemma returns_at_first_hit_witness :
  @solve_cnewton ieee coarse_libm 200 (@tolerance ieee) ((-2)%float, 2%float) =
  Return (Some (outcome64 (-2)%float 2%float
                  (orbit Newton_Raphson (complex64 (-2)%float 2%float) 8)
                  (value_of f (orbit Newton_Raphson (complex64 (-2)%float 2%float) 8))
                  (Z.of_nat 8) (@log10 ieee coarse_libm (Z2float (Z.of_nat 8))))).
Proof.
  apply (proj1 (@returns_at_first_hit ieee coarse_libm 200 (@tolerance ieee)
                  ((-2)%float, 2%float)
                  (orbit Newton_Raphson (complex64 (-2)%float 2%float))
                  (fun n => value_of f (orbit Newton_Raphson (complex64 (-2)%float 2%float) n))
                  8%nat ltac:(lia) ltac:(lia))).
  split; [reflexivity|].
  intros n Hn.
  destruct n as [|[|[|[|[|[|[|[|n]]]]]]]]; [repeat split; run .. | lia].
Defined.

(** ** What an outcome says of the run *)

Section Trace.
Context {Sc : Scalar} {L : Libm Sc}.
Variable M : Z.
Variable tol : F.
Variables update func : pycomplex -> result pycomplex.
Variables x0 y0 : F.

(** The iterates from [z] are, after the first, those from its update. *)
Lemma orbit_shift (z z1 : pycomplex) :
  update z = Return z1 ->
  forall n : nat, orbit update z (S n) = orbit update z1 n.
Proof.
  intros Hu. induction n as [|n IH].
  - simpl. rewrite Hu. reflexivity.
  - change (orbit update z (S (S n))) with
      (match update (orbit update z (S n)) with
       | Return z' => z'
       | Raise _ => orbit update z (S n)
       end).
    rewrite IH. reflexivity.
Qed.

Lemma solve_loop_trace (todo : nat) :
  forall (i c : Z) (z : pycomplex) (o : outcome),
    solve_loop M tol update func x0 y0 todo i c z = Return (Some o) ->
    exists n : nat,
      counter o = c + Z.of_nat (S n) /\
      root o = orbit update z (S n) /\
      func (root o) = Return (f_root o) /\
      (forall m : nat, (m <= n)%nat ->
         update (orbit update z m) = Return (orbit update z (S m))) /\
      (forall m : nat, (m < n)%nat ->
         func (orbit update z (S m)) = Return (value_of func (orbit update z (S m))) /\
         we_are_done tol (value_of func (orbit update z (S m)))
                     (orbit update z (S m)) (orbit update z m) = Return false) /\
      (we_are_done tol (f_root o) (root o) (orbit update z n) = Return true \/
       i + Z.of_nat n = M - 1).
Proof.
  induction todo as [|todo IH]; intros i c z o H; [discriminate|].
  rewrite solve_loop_S in H.
  apply bind_Return in H. destruct H as (z1 & Hu & H).
  apply bind_Return in H. destruct H as (f1 & Hf & H).
  apply bind_Return in H. destruct H as (done & Hd & H).
  assert (H1 : orbit update z 1 = z1) by (simpl; rewrite Hu; reflexivity).
  assert (Hstop : forall o', o' = mk_outcome x0 y0 z1 f1 (c + 1) (log10 (of_int (c + 1))) ->
            (done = true \/ i = M - 1) ->
            exists n : nat,
              counter o' = c + Z.of_nat (S n) /\
              root o' = orbit update z (S n) /\
              func (root o') = Return (f_root o') /\
              (forall m : nat, (m <= n)%nat ->
                 update (orbit update z m) = Return (orbit update z (S m))) /\
              (forall m : nat, (m < n)%nat ->
                 func (orbit update z (S m)) =
                 Return (value_of func (orbit update z (S m))) /\
                 we_are_done tol (value_of func (orbit update z (S m)))
                             (orbit update z (S m)) (orbit update z m) = Return false) /\
              (we_are_done tol (f_root o') (root o') (orbit update z n) = Return true \/
               i + Z.of_nat n = M - 1)).
  { intros o' -> Hwhy. exists O. cbn [counter root f_root].
    split; [lia|]. split; [symmetry; exact H1|]. split; [exact Hf|].
    split; [|split].
    - intros m Hm. replace m with O by lia. rewrite H1. exact Hu.
    - intros m Hm. lia.
    - destruct Hwhy as [-> | ->]; [left; exact Hd | right; lia]. }
  destruct done.
  - inv_Return H. apply Hstop; [reflexivity | left; reflexivity].
  - destruct (Z.eqb_spec i (M - 1)) as [Hi|Hi].
    + inv_Return H. apply Hstop; [reflexivity | right; lia].
    + apply IH in H. destruct H as (n & Hc & Hr & Hfr & Hus & Hds & Hlast).
      exists (S n).
      split; [lia|].
      split; [rewrite (orbit_shift z z1 Hu); exact Hr|].
      split; [exact Hfr|].
      split; [|split].
      * intros m Hm. destruct m as [|m].
        -- rewrite H1. exact Hu.
        -- rewrite !(orbit_shift z z1 Hu). apply Hus. lia.
      * intros m Hm. destruct m as [|m].
        -- rewrite H1. unfold value_of. rewrite Hf. split; [reflexivity | exact Hd].
        -- rewrite !(orbit_shift z z1 Hu). apply Hds. lia.
      * rewrite (orbit_shift z z1 Hu).
        destruct Hlast as [Hlast|Hlast]; [left; exact Hlast | right; lia].
Qed.

Lemma solve_explained (o : outcome) :
  solve M tol update func x0 y0 = Return (Some o) ->
  explains update func tol M (x0, y0) o.
Proof.
  intros H. unfold solve in H. apply solve_loop_trace in H.
  destruct H as (n & Hc & Hr & Hfr & Hus & Hds & Hlast).
  exists n. cbn [fst snd].
  split; [lia|]. split; [exact Hr|]. split; [exact Hfr|].
  split; [exact Hus|]. split; [exact Hds|].
  destruct Hlast as [Hlast|Hlast]; [left; exact Hlast | right; lia].
Qed.

End Trace.

(** X2. What a returned outcome says: its root is the Newton iterate, from
    the duplet, of rank [counter]; its fourth component is the function at
    that root; every update on the way returned; the test failed at every
    earlier step; and at the last step the test held or the counter is M. *)
Theorem outcome_explained {Sc : Scalar} {L : Libm Sc}
        (M : Z) (tol : F) (duplet : F * F) (o : outcome) :
  (solve_cnewton M tol duplet = Return (Some o) ->
   explains Newton_Raphson f tol M duplet o) /\
  (solve_cnewton2 M tol duplet = Return (Some o) ->
   explains Newton_Raphson2 f2 tol M duplet o).
Proof.
  destruct duplet as [x y]. split; intros H.
  - apply solve_explained. exact H.
  - apply solve_explained. exact H.
Qed.

Lemma outcome_explained_witness :
  @explains ieee coarse_libm Newton_Raphson f (@tolerance ieee) 200 (5%float, 5%float)
            (outcome64 5%float 5%float
               (orbit Newton_Raphson (complex64 5%float 5%float) 12)
               (value_of f (orbit Newton_Raphson (complex64 5%float 5%float) 12))
               12 (@log10 ieee coarse_libm (Z2float 12))).
Proof.
  apply (proj1 (@outcome_explained ieee coarse_libm 200 (@tolerance ieee)
                  (5%float, 5%float) _)).
  run.
Defined.

(** X3. When the updates raise. On binary64 an update raises
    OverflowError exactly when a power overflows, in its function or in
    its divisor, and ZeroDivisionError exactly when both are computed and
    the divisor is == 0; so at 0 for the cubic, and at 1 and at -1 for the
    polynomial of degree 9. Over the reals these are the only places: the
    update of the cubic raises, and then ZeroDivisionError, exactly at 0,
    and that of the polynomial of degree 9 exactly at 1 and at -1. *)
Theorem singular_points (u : @pycomplex ieee) (z : @pycomplex ideal) :
  ((forall e,
       @Newton_Raphson ieee u = Raise e <->
       (e = OverflowError /\
        (@f ieee u = Raise OverflowError \/ @f_prime ieee u = Raise OverflowError)) \/
       (e = ZeroDivisionError /\
        exists num den,
          @f ieee u = Return num /\ @f_prime ieee u = Return den /\
          @c_eq_int ieee den 0 = true)) /\
   (forall e,
       @Newton_Raphson2 ieee u = Raise e <->
       (e = OverflowError /\
        (@f2 ieee u = Raise OverflowError \/ @f2_prime ieee u = Raise OverflowError)) \/
       (e = ZeroDivisionError /\
        exists num den,
          @f2 ieee u = Return num /\ @f2_prime ieee u = Return den /\
          @c_eq_int ieee den 0 = true)) /\
   @Newton_Raphson ieee (complex64 0%float 0%float) = Raise ZeroDivisionError /\
   @Newton_Raphson2 ieee (complex64 1%float 0%float) = Raise ZeroDivisionError /\
   @Newton_Raphson2 ieee (complex64 (-1)%float 0%float) = Raise ZeroDivisionError) /\
  ((exists e, @Newton_Raphson ideal z = Raise e) <-> z = c_of_int 0) /\
  ((exists e, @Newton_Raphson2 ideal z = Raise e) <->
   z = @complex ideal 1%R 0%R \/ z = @complex ideal (-1)%R 0%R) /\
  (forall e, @Newton_Raphson ideal z = Raise e \/ @Newton_Raphson2 ideal z = Raise e ->
             e = ZeroDivisionError).
Proof.
  split; [|split; [|split]].
  - split; [intros e; apply Newton_Raphson_raises|].
    split; [intros e; apply Newton_Raphson2_raises|].
    split; [run|]. split; run.
  - split.
    + intros [e He].
      destruct (complex_eq_dec (peval (pderiv cubic) z) (c_of_int 0)) as [Hd|Hd].
      * apply cubic_derivative_zero. exact Hd.
      * rewrite Newton_Raphson_ideal in He by exact Hd. discriminate.
    + intros Hz. exists ZeroDivisionError. apply Newton_Raphson_singular.
      apply cubic_derivative_zero. exact Hz.
  - split.
    + intros [e He].
      destruct (complex_eq_dec (peval (pderiv degree9) z) (c_of_int 0)) as [Hd|Hd].
      * apply degree9_derivative_zero. exact Hd.
      * rewrite Newton_Raphson2_ideal in He by exact Hd. discriminate.
    + intros Hz. exists ZeroDivisionError. apply Newton_Raphson2_singular.
      apply degree9_derivative_zero. exact Hz.
  - intros e [He|He].
    + destruct (complex_eq_dec (peval (pderiv cubic) z) (c_of_int 0)) as [Hd|Hd].
      * rewrite Newton_Raphson_singular in He by exact Hd. congruence.
      * rewrite Newton_Raphson_ideal in He by exact Hd. discriminate.
    + destruct (complex_eq_dec (peval (pderiv degree9) z) (c_of_int 0)) as [Hd|Hd].
      * rewrite Newton_Raphson2_singular in He by exact Hd. congruence.
      * rewrite Newton_Raphson2_ideal in He by exact Hd. discriminate.
Qed.

(** ** Starting from a root *)

Section IdealStart.

Local Abbreviation Complex := (@pycomplex ideal).

Ltac reals := cbv - [Rplus Rminus Rmult Rdiv Rinv Ropp IZR].

(** A root of either polynomial is no zero of its derivative. *)
Lemma cubic_root_regular (r : Complex) :
  peval cubic r = c_of_int 0 -> peval (pderiv cubic) r <> c_of_int 0.
Proof.
  intros Hroot Hd. apply (proj1 (cubic_derivative_zero r)) in Hd. subst r.
  revert Hroot. reals. intros H. injection H as Hre Him. lra.
Qed.

Lemma degree9_root_regular (r : Complex) :
  peval degree9 r = c_of_int 0 -> peval (pderiv degree9) r <> c_of_int 0.
Proof.
  intros Hroot Hd. apply (proj1 (degree9_derivative_zero r)) in Hd.
  destruct Hd as [-> | ->]; revert Hroot; reals; intros H; injection H as Hre Him; lra.
Qed.

Lemma Newton_Raphson_root (r : Complex) :
  peval cubic r = c_of_int 0 -> @Newton_Raphson ideal r = Return r.
Proof.
  intros Hroot.
  rewrite Newton_Raphson_ideal by (apply cubic_root_regular; exact Hroot).
  rewrite Hroot, c_div_0, c_diff_0. reflexivity.
Qed.

Lemma Newton_Raphson2_root (r : Complex) :
  peval degree9 r = c_of_int 0 -> @Newton_Raphson2 ideal r = Return r.
Proof.
  intros Hroot.
  rewrite Newton_Raphson2_ideal by (apply degree9_root_regular; exact Hroot).
  rewrite Hroot, c_div_0, c_diff_0. reflexivity.
Qed.

Lemma we_are_done_ideal_0 (tol : R) (z_new z : Complex) :
  @we_are_done ideal ideal_libm tol (c_of_int 0) z_new z = Return true.
Proof.
  unfold we_are_done, c_eq_int, c_of_int. cbn. unfold Reqb.
  destruct (Req_dec_T 0 0); [reflexivity | congruence].
Qed.

(** One turn of the loop from a fixed point at which the function is 0. *)
Lemma solve_fixed_point (M : Z) (tol : R)
      (update func : Complex -> result Complex) (r : Complex) :
  1 <= M ->
  update r = Return r ->
  func r = Return (c_of_int 0) ->
  @solve ideal ideal_libm M tol update func (real r) (imag r) =
  Return (Some (mk_outcome (real r) (imag r) r (c_of_int 0) 1
                           (@log10 ideal ideal_libm (of_int 1)))).
Proof.
  intros HM Hu Hf. unfold solve.
  destruct (Z.to_nat M) as [|todo] eqn:E; [lia|].
  rewrite solve_loop_S.
  replace (complex (real r) (imag r)) with r by (destruct r; reflexivity).
  rewrite Hu. cbn [bind]. rewrite Hf. cbn [bind].
  rewrite we_are_done_ideal_0. reflexivity.
Qed.

End IdealStart.

(** X4. A solver started exactly at a root of its polynomial returns
    after one step, whatever the tolerance: the counter is 1, the estimate
    is the root itself and the value of the function is 0. On binary64, for
    every libm, at the root 1 of the cubic and at the root 0 of the
    polynomial of degree 9, which are doubles. Over the reals, at every
    root. *)
Theorem one_step_from_a_root (L : Libm ieee) (tol64 : float) (M : Z) (tol : R)
        (r : @pycomplex ideal) :
  1 <= M ->
  (@solve_cnewton ieee L M tol64 (1%float, 0%float) =
   Return (Some (outcome64 1%float 0%float
                            (complex64 1%float 0%float) (complex64 0%float 0%float)
                            1 (@log10 ieee L (of_int 1)))) /\
   @solve_cnewton2 ieee L M tol64 (0%float, 0%float) =
   Return (Some (outcome64 0%float 0%float
                            (complex64 0%float 0%float) (complex64 0%float 0%float)
                            1 (@log10 ieee L (of_int 1))))) /\
  (peval cubic r = c_of_int 0 ->
   @solve_cnewton ideal ideal_libm M tol (real r, imag r) =
   Return (Some (mk_outcome (real r) (imag r) r (c_of_int 0) 1
                            (@log10 ideal ideal_libm (of_int 1))))) /\
  (peval degree9 r = c_of_int 0 ->
   @solve_cnewton2 ideal ideal_libm M tol (real r, imag r) =
   Return (Some (mk_outcome (real r) (imag r) r (c_of_int 0) 1
                            (@log10 ideal ideal_libm (of_int 1))))).
Proof.
  intros HM. split; [split|split; intros Hroot].
  - unfold solve_cnewton. cbn [fst snd].
    apply solve_one_turn; [exact HM | run | run | reflexivity].
  - unfold solve_cnewton2. cbn [fst snd].
    apply solve_one_turn; [exact HM | run | run | reflexivity].
  - unfold solve_cnewton. cbn [fst snd]. apply solve_fixed_point.
    + exact HM.
    + apply Newton_Raphson_root. exact Hroot.
    + rewrite f_ideal, Hroot. reflexivity.
  - unfold solve_cnewton2. cbn [fst snd]. apply solve_fixed_point.
    + exact HM.
    + apply Newton_Raphson2_root. exact Hroot.
    + rewrite f2_ideal, Hroot. reflexivity.
Qed.

Lemma one_step_from_a_root_witness :
  (@solve_cnewton ieee coarse_libm 200 (@tolerance ieee) (1%float, 0%float) =
   Return (Some (outcome64 1%float 0%float
                            (complex64 1%float 0%float) (complex64 0%float 0%float)
                            1 (@log10 ieee coarse_libm (of_int 1)))) /\
   @solve_cnewton2 ieee coarse_libm 200 (@tolerance ieee) (0%float, 0%float) =
   Return (Some (outcome64 0%float 0%float
                            (complex64 0%float 0%float) (complex64 0%float 0%float)
                            1 (@log10 ieee coarse_libm (of_int 1))))) /\
  @solve_cnewton ideal ideal_libm 200 (@tolerance ideal) (1%R, 0%R) =
  Return (Some (@mk_outcome ideal 1%R 0%R (@complex ideal 1%R 0%R) (c_of_int 0) 1
                           (@log10 ideal ideal_libm (of_int 1)))) /\
  @solve_cnewton2 ideal ideal_libm 200 (@tolerance ideal) (0%R, 0%R) =
  Return (Some (@mk_outcome ideal 0%R 0%R (@complex ideal 0%R 0%R) (c_of_int 0) 1
                           (@log10 ideal ideal_libm (of_int 1)))).
Proof.
  split; [|split].
  - apply (proj1 (one_step_from_a_root coarse_libm (@tolerance ieee) 200
                    (@tolerance ideal) (@complex ideal 1%R 0%R) ltac:(lia))).
  - apply (proj1 (proj2 (one_step_from_a_root coarse_libm (@tolerance ieee) 200
                           (@tolerance ideal) (@complex ideal 1%R 0%R) ltac:(lia)))).
    cbv - [Rplus Rminus Rmult Rdiv Rinv Ropp IZR]. f_equal; ring.
  - apply (proj2 (proj2 (one_step_from_a_root coarse_libm (@tolerance ieee) 200
                           (@tolerance ideal) (@complex ideal 0%R 0%R) ltac:(lia)))).
    cbv - [Rplus Rminus Rmult Rdiv Rinv Ropp IZR]. f_equal; ring.
Defined.

(** ** The labels of the roots of the cubic *)

Section IdealLabels.

Local Abbreviation Complex := (@pycomplex ideal).

Ltac reals := cbv - [Rplus Rminus Rmult Rdiv Rinv Ropp IZR sqrt Rabs Rlt_dec].

Lemma sqrt3_bounds : (1.7320508 < sqrt 3 < 1.7320509)%R.
Proof.
  pose proof (sqrt_sqrt 3 ltac:(lra)) as Hs.
  pose proof (sqrt_pos 3) as Hp.
  split; nra.
Qed.

(** The three cube roots of 1. *)
Lemma cubic_roots (r : Complex) :
  peval cubic r = c_of_int 0 ->
  r = @complex ideal 1%R 0%R \/
  r = @complex ideal (-1 / 2)%R (sqrt 3 / 2)%R \/
  r = @complex ideal (-1 / 2)%R (- (sqrt 3 / 2))%R.
Proof.
  destruct r as [a b]. reals. intros H. injection H as Hre Him.
  assert (H1 : (a * a * a - 3 * a * (b * b) - 1 = 0)%R)
    by (etransitivity; [|exact Hre]; ring).
  assert (H2 : (b * (3 * a * a - b * b) = 0)%R)
    by (etransitivity; [|exact Him]; ring).
  clear Hre Him.
  apply Rmult_integral in H2. destruct H2 as [Hb|Hb].
  - subst b. left.
    assert (Ha : ((a - 1) * (a * a + a + 1) = 0)%R) by (ring_simplify; lra).
    apply Rmult_integral in Ha. destruct Ha as [Ha|Ha]; [|exfalso; nra].
    f_equal. lra.
  - right.
    assert (Hb2 : (b * b = 3 * a * a)%R) by lra.
    rewrite Hb2 in H1.
    assert (Ha : ((2 * a + 1) * (4 * a * a - 2 * a + 1) = 0)%R) by (ring_simplify; lra).
    apply Rmult_integral in Ha. destruct Ha as [Ha|Ha]; [|exfalso; nra].
    assert (Ha' : a = (-1 / 2)%R) by lra. subst a.
    pose proof (sqrt_sqrt 3 ltac:(lra)) as Hs.
    assert (Hb3 : ((b - sqrt 3 / 2) * (b + sqrt 3 / 2) = 0)%R) by (ring_simplify; lra).
    apply Rmult_integral in Hb3. destruct Hb3 as [Hb3|Hb3].
    + left. f_equal. lra.
    + right. f_equal. lra.
Qed.

(** And they are roots. *)
Lemma cubic_root_1 : peval cubic (@complex ideal 1%R 0%R) = c_of_int 0.
Proof. reals. f_equal; ring. Qed.

Lemma cubic_roots_23 :
  peval cubic (@complex ideal (-1 / 2)%R (sqrt 3 / 2)%R) = c_of_int 0 /\
  peval cubic (@complex ideal (-1 / 2)%R (- (sqrt 3 / 2))%R) = c_of_int 0.
Proof.
  pose proof (sqrt_sqrt 3 ltac:(lra)) as Hs.
  generalize dependent (sqrt 3). intros s Hs.
  assert (Hs3 : (s * s * s = 3 * s)%R) by (rewrite Hs; reflexivity).
  split; reals; f_equal; nra.
Qed.

Lemma Rltb_true (x y : R) : (x < y)%R -> Rltb x y = true.
Proof. intros H. unfold Rltb. destruct (Rlt_dec x y); [reflexivity | contradiction]. Qed.

Lemma Rltb_false (x y : R) : ~ (x < y)%R -> Rltb x y = false.
Proof. intros H. unfold Rltb. destruct (Rlt_dec x y); [contradiction | reflexivity]. Qed.

Ltac literals :=
  unfold classify, tolerance2; cbn;
  change (10 ^ Z.of_nat 6) with 1000000;
  try change (10 ^ Z.of_nat 10) with 10000000000.

Ltac distance := unfold Rabs; destruct (Rcase_abs _); lra.

Lemma classify_root_1 :
  @classify ideal (@tolerance2 ideal) (@complex ideal 1%R 0%R) = "k"%string.
Proof.
  literals. rewrite Rltb_true; [reflexivity | distance].
Qed.

Lemma classify_root_2 :
  @classify ideal (@tolerance2 ideal) (@complex ideal (-1 / 2)%R (sqrt 3 / 2)%R) = "g"%string.
Proof.
  pose proof sqrt3_bounds as Hb. literals.
  rewrite Rltb_false; [|distance].
  rewrite Rltb_true; [reflexivity | distance].
Qed.

Lemma classify_root_3 :
  @classify ideal (@tolerance2 ideal) (@complex ideal (-1 / 2)%R (- (sqrt 3 / 2))%R)
  = "r"%string.
Proof.
  pose proof sqrt3_bounds as Hb. literals.
  rewrite Rltb_false; [|distance].
  rewrite Rltb_false; [reflexivity | distance].
Qed.

End IdealLabels.

(** X5. With the tolerance 1e-6 of the script, the chain of the cubic
    tells the three roots apart. On binary64 the doubles next to the roots,
    1, -0.5 + 0.8660254037844386i and -0.5 - 0.8660254037844386i, are black,
    green and red. Over the reals a number is a root of the cubic exactly
    when it is 1 and black, or -1/2 + i sqrt(3)/2 and green, or
    -1/2 - i sqrt(3)/2 and red. *)
Theorem roots_are_told_apart (r : @pycomplex ideal) :
  (@classify ieee (@tolerance2 ieee) (complex64 1%float 0%float) = "k"%string /\
   @classify ieee (@tolerance2 ieee)
             (complex64 (-0x1p-1)%float 0x1.bb67ae8584caap-1%float) = "g"%string /\
   @classify ieee (@tolerance2 ieee)
             (complex64 (-0x1p-1)%float (-0x1.bb67ae8584caap-1)%float) = "r"%string) /\
  (peval cubic r = c_of_int 0 <->
   (r = @complex ideal 1%R 0%R /\
    @classify ideal (@tolerance2 ideal) r = "k"%string) \/
   (r = @complex ideal (-1 / 2)%R (sqrt 3 / 2)%R /\
    @classify ideal (@tolerance2 ideal) r = "g"%string) \/
   (r = @complex ideal (-1 / 2)%R (- (sqrt 3 / 2))%R /\
    @classify ideal (@tolerance2 ideal) r = "r"%string)).
Proof.
  split; [split; [|split]; run|].
  split.
  - intros Hroot. apply cubic_roots in Hroot.
    destruct Hroot as [-> | [-> | ->]].
    + left. split; [reflexivity | apply classify_root_1].
    + right. left. split; [reflexivity | apply classify_root_2].
    + right. right. split; [reflexivity | apply classify_root_3].
  - intros [[-> _] | [[-> _] | [-> _]]].
    + apply cubic_root_1.
    + apply cubic_roots_23.
    + apply cubic_roots_23.
Qed.

(** The three roots, each with its label. *)
Lemma roots_are_told_apart_witness :
  @classify ideal (@tolerance2 ideal) (@complex ideal 1%R 0%R) = "k"%string /\
  @classify ideal (@tolerance2 ideal) (@complex ideal (-1 / 2)%R (sqrt 3 / 2)%R)
  = "g"%string /\
  @classify ideal (@tolerance2 ideal) (@complex ideal (-1 / 2)%R (- (sqrt 3 / 2))%R)
  = "r"%string.
Proof.
  pose proof sqrt3_bounds as Hb.
  split; [|split].
  - destruct (proj1 (proj2 (roots_are_told_apart (@complex ideal 1%R 0%R))) cubic_root_1)
      as [[_ H] | [[H _] | [H _]]]; [exact H | |]; exfalso; injection H as H; lra.
  - destruct (proj1 (proj2 (roots_are_told_apart
                              (@complex ideal (-1 / 2)%R (sqrt 3 / 2)%R)))
                    (proj1 cubic_roots_23))
      as [[H _] | [[_ H] | [H _]]]; [| exact H |]; exfalso; injection H as H; lra.
  - destruct (proj1 (proj2 (roots_are_told_apart
                              (@complex ideal (-1 / 2)%R (- (sqrt 3 / 2))%R)))
                    (proj2 cubic_roots_23))
      as [[H _] | [[H _] | [_ H]]]; [| | exact H]; exfalso; injection H as H; lra.
Defined.

(** ** The shape of the grid *)

Section Shape.
Context {Sc : Scalar}.

Lemma linspace_negative (start stop : F) (N : Z) :
  N < 0 -> linspace start stop N = Raise ValueError.
Proof.
  intros HN. unfold linspace. destruct (Z.ltb_spec N 0); [reflexivity | lia].
Qed.

Lemma linspace_length (start stop : F) (N : Z) :
  0 <= N ->
  exists l, linspace start stop N = Return l /\ List.length l = Z.to_nat N.
Proof.
  intros HN. unfold linspace. destruct (Z.ltb_spec N 0); [lia|].
  eexists. split; [reflexivity|].
  destruct (1 <? N); [rewrite set_last_length|];
    (destruct (0 <? N - 1); [destruct (feq _ _)|]);
    rewrite !length_map, length_range; reflexivity.
Qed.

Lemma dstack_meshgrid_square (xs ys : list F) (N : Z) :
  List.length xs = Z.to_nat N -> List.length ys = Z.to_nat N ->
  square N (dstack (meshgrid xs ys)).
Proof.
  intros Hx Hy. rewrite dstack_meshgrid. split.
  - rewrite length_map. exact Hy.
  - apply Forall_forall. intros row Hrow.
    apply in_map_iff in Hrow. destruct Hrow as (yv & <- & _).
    rewrite length_map. exact Hx.
Qed.

Lemma make_grid_negative (grid_point1 grid_point2 : F * F) (N : Z) :
  N < 0 -> make_grid grid_point1 grid_point2 N = Raise ValueError.
Proof.
  intros HN. destruct grid_point1 as [x1 y1], grid_point2 as [x2 y2].
  unfold make_grid. rewrite linspace_negative by exact HN. reflexivity.
Qed.

Lemma make_grid_square (grid_point1 grid_point2 : F * F) (N : Z) :
  0 <= N ->
  exists grid, make_grid grid_point1 grid_point2 N = Return grid /\ square N grid.
Proof.
  intros HN. destruct grid_point1 as [x1 y1], grid_point2 as [x2 y2].
  unfold make_grid.
  destruct (linspace_length x1 x2 N HN) as (xs & Hxs & Hx).
  destruct (linspace_length y1 y2 N HN) as (ys & Hys & Hy).
  rewrite Hxs, Hys. cbn [bind]. eexists. split; [reflexivity|].
  apply dstack_meshgrid_square; assumption.
Qed.

(** Reading a square matrix: an element inside, IndexError outside. *)
Lemma getitem2_inside {A : Type} (m : list (list A)) (N i j : Z) :
  square N m -> 0 <= i < N -> 0 <= j < N ->
  exists v, getitem2 m i j = Return v.
Proof.
  intros [Hrows Hcols] Hi Hj. unfold getitem2.
  destruct (nth_error m (Z.to_nat i)) as [row|] eqn:Erow.
  - cbn [from_option bind].
    assert (Hlen : List.length row = Z.to_nat N).
    { rewrite Forall_forall in Hcols. apply Hcols.
      apply nth_error_In with (Z.to_nat i). exact Erow. }
    destruct (nth_error row (Z.to_nat j)) as [v|] eqn:Ev.
    + exists v. reflexivity.
    + apply nth_error_None in Ev. lia.
  - apply nth_error_None in Erow. lia.
Qed.

Lemma getitem2_outside {A : Type} (m : list (list A)) (N i j : Z) :
  square N m -> 0 <= i -> 0 <= j -> ~ (i < N /\ j < N) ->
  getitem2 m i j = Raise IndexError.
Proof.
  intros [Hrows Hcols] Hi Hj Hout. unfold getitem2.
  destruct (nth_error m (Z.to_nat i)) as [row|] eqn:Erow; [|reflexivity].
  cbn [from_option bind].
  assert (Hlen : List.length row = Z.to_nat N).
  { rewrite Forall_forall in Hcols. apply Hcols.
    apply nth_error_In with (Z.to_nat i). exact Erow. }
  assert (Hirow : (Z.to_nat i < List.length m)%nat).
  { apply nth_error_Some. congruence. }
  destruct (nth_error row (Z.to_nat j)) as [v|] eqn:Ev; [|reflexivity].
  assert (Hjrow : (Z.to_nat j < List.length row)%nat).
  { apply nth_error_Some. congruence. }
  exfalso. apply Hout. lia.
Qed.

End Shape.

(** X6. The grid of a negative N is refused with ValueError; for N >= 0 the
    grid is built whatever the corners, it has N rows of N duplets, reading
    it at indices within [0, N) returns a duplet and reading it elsewhere
    raises IndexError. *)
Theorem grid_is_square {Sc : Scalar} (grid_point1 grid_point2 : F * F) (N : Z) :
  (N < 0 -> make_grid grid_point1 grid_point2 N = Raise ValueError) /\
  (0 <= N ->
   exists grid,
     make_grid grid_point1 grid_point2 N = Return grid /\
     square N grid /\
     forall i j : Z, 0 <= i -> 0 <= j ->
       (i < N /\ j < N -> exists duplet, getitem2 grid i j = Return duplet) /\
       (~ (i < N /\ j < N) -> getitem2 grid i j = Raise IndexError)).
Proof.
  split.
  - apply make_grid_negative.
  - intros HN.
    destruct (make_grid_square grid_point1 grid_point2 N HN) as (grid & Hg & Hsq).
    exists grid. split; [exact Hg|]. split; [exact Hsq|].
    intros i j Hi Hj. split.
    + intros [HiN HjN]. apply (getitem2_inside grid N); [exact Hsq | lia | lia].
    + intros Hout. apply (getitem2_outside grid N); assumption.
Qed.

(** ** What the two cells need *)

Section Cells.
Context {Sc : Scalar} {L : Libm Sc}.
Variables M N : Z.
Variables tol tol2 : F.
Variables grid_point1 grid_point2 : F * F.

(** The part the two cells share: the grid, the test call at [grid[2][1]]
    and the loops, for a solver that returns None without budget. *)
Variable solver : F * F -> result (option outcome).
Variable label : pycomplex -> string.

Let cell : result figure :=
  grid <- make_grid grid_point1 grid_point2 N ;;
  test_point <- getitem2 grid 2 1 ;;
  test <- solver test_point ;;
  _ <- from_option TypeError test ;;
  log_n_matrix <- zeros N ;;
  evaluate_grid solver label grid N (mk_figure log_n_matrix []).

Lemma cell_negative : N < 0 -> cell = Raise ValueError.
Proof.
  intros HN. unfold cell. rewrite make_grid_negative by exact HN. reflexivity.
Qed.

Lemma cell_small : 0 <= N <= 2 -> cell = Raise IndexError.
Proof.
  intros HN. unfold cell.
  destruct (make_grid_square grid_point1 grid_point2 N) as (grid & Hg & Hsq); [lia|].
  rewrite Hg. cbn [bind].
  rewrite (getitem2_outside grid N) by (try exact Hsq; lia).
  reflexivity.
Qed.

Lemma cell_no_budget :
  (forall duplet, solver duplet = Return None) ->
  3 <= N -> cell = Raise TypeError.
Proof.
  intros Hnone HN. unfold cell.
  destruct (make_grid_square grid_point1 grid_point2 N) as (grid & Hg & Hsq); [lia|].
  rewrite Hg. cbn [bind].
  destruct (getitem2_inside grid N 2 1 Hsq) as (duplet & Hd); [lia | lia |].
  rewrite Hd. cbn [bind]. rewrite Hnone. reflexivity.
Qed.

End Cells.

(** X7. The cell of the cubic and that of the polynomial of degree 9 raise
    ValueError for N < 0, IndexError for 0 <= N <= 2 (the test call reads
    grid[2][1]) and TypeError for N >= 3 with M <= 0 (the test call unpacks
    None); so a cell that returns a figure was run with N >= 3 and
    M >= 1. *)
Theorem cells_need {Sc : Scalar} {L : Libm Sc}
        (M N : Z) (tol tol2 : F) (grid_point1 grid_point2 : F * F) :
  (N < 0 ->
   cubic_cell M N tol tol2 grid_point1 grid_point2 = Raise ValueError /\
   degree9_cell M N tol tol2 grid_point1 grid_point2 = Raise ValueError) /\
  (0 <= N <= 2 ->
   cubic_cell M N tol tol2 grid_point1 grid_point2 = Raise IndexError /\
   degree9_cell M N tol tol2 grid_point1 grid_point2 = Raise IndexError) /\
  (3 <= N -> M <= 0 ->
   cubic_cell M N tol tol2 grid_point1 grid_point2 = Raise TypeError /\
   degree9_cell M N tol tol2 grid_point1 grid_point2 = Raise TypeError) /\
  (forall fig,
      cubic_cell M N tol tol2 grid_point1 grid_point2 = Return fig \/
      degree9_cell M N tol tol2 grid_point1 grid_point2 = Return fig ->
      3 <= N /\ 1 <= M).
Proof.
  assert (H1 : N < 0 ->
               cubic_cell M N tol tol2 grid_point1 grid_point2 = Raise ValueError /\
               degree9_cell M N tol tol2 grid_point1 grid_point2 = Raise ValueError).
  { intros HN. split; apply cell_negative; exact HN. }
  assert (H2 : 0 <= N <= 2 ->
               cubic_cell M N tol tol2 grid_point1 grid_point2 = Raise IndexError /\
               degree9_cell M N tol tol2 grid_point1 grid_point2 = Raise IndexError).
  { intros HN. split; apply cell_small; exact HN. }
  assert (H3 : 3 <= N -> M <= 0 ->
               cubic_cell M N tol tol2 grid_point1 grid_point2 = Raise TypeError /\
               degree9_cell M N tol tol2 grid_point1 grid_point2 = Raise TypeError).
  { intros HN HM. split; apply cell_no_budget; try exact HN;
      intros duplet; apply solve_no_budget; exact HM. }
  split; [exact H1|]. split; [exact H2|]. split; [exact H3|].
  intros fig Hfig.
  destruct (Z.lt_ge_cases N 0) as [HN|HN].
  { destruct (H1 HN) as [Ha Hb]. destruct Hfig as [Hf|Hf]; congruence. }
  destruct (Z.le_gt_cases N 2) as [HN2|HN2].
  { destruct (H2 (conj HN HN2)) as [Ha Hb]. destruct Hfig as [Hf|Hf]; congruence. }
  destruct (Z.le_gt_cases M 0) as [HM|HM].
  { destruct (H3 ltac:(lia) HM) as [Ha Hb]. destruct Hfig as [Hf|Hf]; congruence. }
  lia.
Qed.

(** ** What the loops draw *)

Section LoopsAsOne.
Context {A St : Type}.

Lemma for_each_app (xs ys : list A) (body : A -> St -> result St) (st : St) :
  for_each (xs ++ ys) body st = (st' <- for_each xs body st ;; for_each ys body st').
Proof.
  revert st. induction xs as [|x xs IH]; intros st; simpl; [reflexivity|].
  destruct (body x st) as [st1|e]; simpl; [apply IH | reflexivity].
Qed.

Lemma for_each_map {B : Type} (g : B -> A) (l : list B)
      (body : A -> St -> result St) (st : St) :
  for_each (map g l) body st = for_each l (fun b => body (g b)) st.
Proof.
  revert st. induction l as [|b l IH]; intros st; simpl; [reflexivity|].
  destruct (body (g b) st) as [st1|e]; simpl; [apply IH | reflexivity].
Qed.

End LoopsAsOne.

(** Two nested loops are one loop over the pairs. *)
Lemma nested_for_each {St : Type} (rows cols : list Z)
      (body : Z -> Z -> St -> result St) (st : St) :
  for_each rows (fun i => for_each cols (fun j => body i j)) st =
  for_each (flat_map (fun i => map (fun j => (i, j)) cols) rows)
           (fun ij => body (fst ij) (snd ij)) st.
Proof.
  revert st. induction rows as [|i rows IH]; intros st; [reflexivity|].
  cbn [flat_map for_each]. rewrite for_each_app, for_each_map. cbn [fst snd].
  destruct (for_each cols (fun j : Z => body i j) st) as [st1|e];
    cbn [bind]; [apply IH | reflexivity].
Qed.

Lemma nested_loops {St : Type} (N : Z) (body : Z -> Z -> St -> result St) (st : St) :
  for_each (range N) (fun i => for_each (range N) (fun j => body i j)) st =
  for_each (points N) (fun ij => body (fst ij) (snd ij)) st.
Proof. apply nested_for_each. Qed.

Lemma in_range_inv (n i : Z) : In i (range n) -> 0 <= i < n.
Proof.
  unfold range. intros H. apply in_map_iff in H. destruct H as (k & <- & Hk).
  apply in_seq in Hk. lia.
Qed.

Lemma in_points (N i j : Z) : In (i, j) (points N) <-> 0 <= i < N /\ 0 <= j < N.
Proof.
  unfold points. rewrite in_flat_map. split.
  - intros (i' & Hi & Hj). apply in_map_iff in Hj. destruct Hj as (j' & Heq & Hj).
    injection Heq as -> ->. split; apply in_range_inv; assumption.
  - intros [Hi Hj]. exists i. split; [apply in_range; exact Hi|].
    apply in_map_iff. exists j. split; [reflexivity | apply in_range; exact Hj].
Qed.

Lemma length_points (N : Z) : List.length (points N) = (Z.to_nat N * Z.to_nat N)%nat.
Proof.
  unfold points. rewrite <- list_prod_as_flat_map, length_prod, length_range.
  reflexivity.
Qed.

Lemma Forall2_same_length {A B : Type} (R : A -> B -> Prop) (l : list A) (l' : list B) :
  Forall2 R l l' -> List.length l' = List.length l.
Proof.
  intros H. induction H as [|a b l l' _ _ IH]; simpl; [reflexivity | rewrite IH; reflexivity].
Qed.

Section Markers.
Context {Sc : Scalar} {L : Libm Sc}.
Variable solver : F * F -> result (option outcome).
Variable label : pycomplex -> string.
Variable grid : list (list (F * F)).

(** What a turn of the body that returns has done. *)
Lemma evaluate_point_Return (i j : Z) (fig fig' : figure) :
  evaluate_point solver label grid i j fig = Return fig' ->
  exists o m,
    outcome_at solver grid (i, j) o /\
    setitem2 (log_n_matrix fig) i j (log_counter o) = Return m /\
    fig' = mk_figure m (scatter fig ++ [marker label o]).
Proof.
  unfold evaluate_point. intros H.
  apply bind_Return in H. destruct H as (duplet & Hg & H).
  apply bind_Return in H. destruct H as (returned & Hs & H).
  apply bind_Return in H. destruct H as (o & Ho & H).
  apply bind_Return in H. destruct H as (m & Hm & H).
  destruct returned as [o'|]; [|discriminate]. injection Ho as ->.
  injection H as <-.
  exists o, m. split; [|split; [exact Hm | reflexivity]].
  exists duplet. split; assumption.
Qed.

Lemma evaluate_points_markers (ps : list (Z * Z)) :
  forall fig fig' : figure,
    for_each ps (fun ij => evaluate_point solver label grid (fst ij) (snd ij)) fig =
    Return fig' ->
    exists os,
      Forall2 (outcome_at solver grid) ps os /\
      scatter fig' = scatter fig ++ map (marker label) os.
Proof.
  induction ps as [|[i j] ps IH]; intros fig fig' H.
  - injection H as <-. exists []. split; [constructor|].
    rewrite app_nil_r. reflexivity.
  - cbn [for_each fst snd] in H.
    apply bind_Return in H. destruct H as (fig1 & H1 & H).
    apply evaluate_point_Return in H1. destruct H1 as (o & m & Ho & _ & ->).
    apply IH in H. destruct H as (os & Hos & Hsc).
    exists (o :: os). split; [constructor; assumption|].
    rewrite Hsc. cbn [scatter map]. rewrite <- app_assoc. reflexivity.
Qed.

(** A solver that keeps the duplet draws every marker at its grid point. *)
Lemma evaluate_grid_markers (N : Z) (fig fig' : figure) :
  (forall duplet o, solver duplet = Return (Some o) ->
                    x_duplet o = fst duplet /\ y_duplet o = snd duplet) ->
  evaluate_grid solver label grid N fig = Return fig' ->
  exists os,
    Forall2 (outcome_at solver grid) (points N) os /\
    scatter fig' = scatter fig ++ map (marker label) os /\
    List.length os = (Z.to_nat N * Z.to_nat N)%nat /\
    Forall2 (fun ij o => getitem2 grid (fst ij) (snd ij) = Return (x_duplet o, y_duplet o))
            (points N) os.
Proof.
  intros Hkeep H. unfold evaluate_grid in H. rewrite nested_loops in H.
  apply evaluate_points_markers in H. destruct H as (os & Hos & Hsc).
  exists os. split; [exact Hos|]. split; [exact Hsc|]. split.
  - rewrite (Forall2_same_length _ _ _ Hos). apply length_points.
  - revert Hos. apply Forall2_impl. intros [i j] o (duplet & Hg & Hs).
    apply Hkeep in Hs. destruct Hs as [Hx Hy]. cbn [fst snd] in *.
    rewrite Hg, Hx, Hy. destruct duplet; reflexivity.
Qed.

End Markers.

(** X8. When the loops over the grid return, they have drawn one marker
    per index pair of [0, N) x [0, N), after those already drawn and in the
    order of the loops (rows first): the marker of the pair (i, j) is at the
    duplet grid[i][j] and has the label of the root the solver returned
    there. *)
Theorem one_marker_per_point {Sc : Scalar} {L : Libm Sc}
        (M N : Z) (tol tol2 : F) (grid : list (list (F * F))) (fig fig' : figure) :
  (evaluate_grid (solve_cnewton M tol) (classify tol2) grid N fig = Return fig' ->
   exists os,
     Forall2 (outcome_at (solve_cnewton M tol) grid) (points N) os /\
     scatter fig' = scatter fig ++ map (marker (classify tol2)) os /\
     List.length os = (Z.to_nat N * Z.to_nat N)%nat /\
     Forall2 (fun ij o => getitem2 grid (fst ij) (snd ij) = Return (x_duplet o, y_duplet o))
             (points N) os) /\
  (evaluate_grid (solve_cnewton2 M tol) (classify2 tol2) grid N fig = Return fig' ->
   exists os,
     Forall2 (outcome_at (solve_cnewton2 M tol) grid) (points N) os /\
     scatter fig' = scatter fig ++ map (marker (classify2 tol2)) os /\
     List.length os = (Z.to_nat N * Z.to_nat N)%nat /\
     Forall2 (fun ij o => getitem2 grid (fst ij) (snd ij) = Return (x_duplet o, y_duplet o))
             (points N) os).
Proof.
  split; apply evaluate_grid_markers; intros duplet o Ho;
    apply solve_outcome in Ho; tauto.
Qed.

(** On the grid of 2 by 2 points between (-2, 2) and (1, -1), with one
    marker drawn before: four markers are added after it, row by row. The
    counters are 8, 23, 8 and 9 for the cubic and 14, 12, 12 and 7 for the
    other polynomial. *)
Lemma one_marker_per_point_witness :
  (exists os : list (@outcome ieee),
      Forall2 (outcome_at (@solve_cnewton ieee coarse_libm 200 (@tolerance ieee))
                          
      [[((-2)%float, 2%float); (1%float, 2%float)];
       [((-2)%float, (-1)%float); (1%float, (-1)%float)]]) (points 2) os /\
      [(5%float, 5%float, "k"%string);
       ((-2)%float, 2%float, "g"%string);
       (1%float, 2%float, "k"%string);
       ((-2)%float, (-1)%float, "r"%string);
       (1%float, (-1)%float, "k"%string)] =
      [(5%float, 5%float, "k"%string)] ++
      map (marker (@classify ieee (@tolerance2 ieee))) os /\
      List.length os = (Z.to_nat 2 * Z.to_nat 2)%nat /\
      Forall2 (fun (ij : Z * Z) (o : @outcome ieee) =>
                 @getitem2 (@F ieee * @F ieee) 
      [[((-2)%float, 2%float); (1%float, 2%float)];
       [((-2)%float, (-1)%float); (1%float, (-1)%float)]] (fst ij) (snd ij) =
                 Return (x_duplet o, y_duplet o))
              (points 2) os) /\
  (exists os : list (@outcome ieee),
      Forall2 (outcome_at (@solve_cnewton2 ieee coarse_libm 200 (@tolerance ieee))
                          
      [[((-2)%float, 2%float); (1%float, 2%float)];
       [((-2)%float, (-1)%float); (1%float, (-1)%float)]]) (points 2) os /\
      [(5%float, 5%float, "k"%string);
       ((-2)%float, 2%float, "darkorchid"%string);
       (1%float, 2%float, "g"%string);
       ((-2)%float, (-1)%float, "pink"%string);
       (1%float, (-1)%float, "r"%string)] =
      [(5%float, 5%float, "k"%string)] ++
      map (marker (@classify2 ieee (@tolerance2 ieee))) os /\
      List.length os = (Z.to_nat 2 * Z.to_nat 2)%nat /\
      Forall2 (fun (ij : Z * Z) (o : @outcome ieee) =>
                 @getitem2 (@F ieee * @F ieee) 
      [[((-2)%float, 2%float); (1%float, 2%float)];
       [((-2)%float, (-1)%float); (1%float, (-1)%float)]] (fst ij) (snd ij) =
                 Return (x_duplet o, y_duplet o))
              (points 2) os).
Proof.
  split.
  - apply (proj1 (@one_marker_per_point ieee coarse_libm 200 2
                    (@tolerance ieee) (@tolerance2 ieee) 
      [[((-2)%float, 2%float); (1%float, 2%float)];
       [((-2)%float, (-1)%float); (1%float, (-1)%float)]]
                    (@mk_figure ieee [[0%float; 0%float]; [0%float; 0%float]]
                                [(5%float, 5%float, "k"%string)])
                    (@mk_figure ieee
                       [[0x1.ce61cf8ef36fep-1%float; 0x1.34413509f79ffp+0%float];
                        [0x1.ce61cf8ef36fep-1%float; 0x1.ce61cf8ef36fep-1%float]]
                       [(5%float, 5%float, "k"%string);
                        ((-2)%float, 2%float, "g"%string);
                        (1%float, 2%float, "k"%string);
                        ((-2)%float, (-1)%float, "r"%string);
                        (1%float, (-1)%float, "k"%string)]))).
    run.
  - apply (proj2 (@one_marker_per_point ieee coarse_libm 200 2
                    (@tolerance ieee) (@tolerance2 ieee) 
      [[((-2)%float, 2%float); (1%float, 2%float)];
       [((-2)%float, (-1)%float); (1%float, (-1)%float)]]
                    (@mk_figure ieee [[0%float; 0%float]; [0%float; 0%float]]
                                [(5%float, 5%float, "k"%string)])
                    (@mk_figure ieee
                       [[0x1.ce61cf8ef36fep-1%float; 0x1.ce61cf8ef36fep-1%float];
                        [0x1.ce61cf8ef36fep-1%float; 0x1.34413509f79ffp-1%float]]
                       [(5%float, 5%float, "k"%string);
                        ((-2)%float, 2%float, "darkorchid"%string);
                        (1%float, 2%float, "g"%string);
                        ((-2)%float, (-1)%float, "pink"%string);
                        (1%float, (-1)%float, "r"%string)]))).
    run.
Defined.

(** ** What the loops store *)

Lemma set_nth_same {A : Type} (l : list A) :
  forall (n : nat) (v : A) (l' : list A),
    set_nth l n v = Some l' -> nth_error l' n = Some v.
Proof.
  induction l as [|a l IH]; intros n v l' H; [discriminate|].
  destruct n as [|n]; simpl in H.
  - injection H as <-. reflexivity.
  - destruct (set_nth l n v) as [l1|] eqn:E; [|discriminate].
    injection H as <-. simpl. apply (IH n v l1 E).
Qed.

Lemma set_nth_other {A : Type} (l : list A) :
  forall (n m : nat) (v : A) (l' : list A),
    set_nth l n v = Some l' -> m <> n -> nth_error l' m = nth_error l m.
Proof.
  induction l as [|a l IH]; intros n m v l' H Hm; [discriminate|].
  destruct n as [|n]; simpl in H.
  - injection H as <-. destruct m as [|m]; [congruence | reflexivity].
  - destruct (set_nth l n v) as [l1|] eqn:E; [|discriminate].
    injection H as <-. destruct m as [|m]; [reflexivity|].
    simpl. apply (IH n m v l1 E). congruence.
Qed.

Lemma from_option_Return {A : Type} (e : exn) (o : option A) (a : A) :
  from_option e o = Return a -> o = Some a.
Proof. destruct o; simpl; congruence. Qed.

(** Writing then reading a matrix: the element written is read back, the
    others are as before. *)
Lemma setitem2_same {A : Type} (a a' : list (list A)) (i j : Z) (v : A) :
  setitem2 a i j v = Return a' -> getitem2 a' i j = Return v.
Proof.
  unfold setitem2, getitem2. intros H.
  apply bind_Return in H. destruct H as (row & Hrow & H).
  apply bind_Return in H. destruct H as (row' & Hrow' & H).
  apply from_option_Return in Hrow, Hrow', H.
  rewrite (set_nth_same _ _ _ _ H). cbn [from_option bind].
  rewrite (set_nth_same _ _ _ _ Hrow'). reflexivity.
Qed.

Lemma setitem2_other {A : Type} (a a' : list (list A)) (i j i' j' : Z) (v : A) :
  setitem2 a i j v = Return a' ->
  0 <= i -> 0 <= j -> 0 <= i' -> 0 <= j' -> (i', j') <> (i, j) ->
  getitem2 a' i' j' = getitem2 a i' j'.
Proof.
  unfold setitem2, getitem2. intros H Hi Hj Hi' Hj' Hne.
  apply bind_Return in H. destruct H as (row & Hrow & H).
  apply bind_Return in H. destruct H as (row' & Hrow' & H).
  apply from_option_Return in Hrow, Hrow', H.
  destruct (Z.eq_dec i' i) as [->|Hii].
  - rewrite (set_nth_same _ _ _ _ H), Hrow. cbn [from_option bind].
    rewrite (set_nth_other _ _ (Z.to_nat j') _ _ Hrow'); [reflexivity|].
    intros Hjj. apply Hne. f_equal. lia.
  - rewrite (set_nth_other _ _ (Z.to_nat i') _ _ H); [reflexivity|]. lia.
Qed.

Lemma NoDup_map_injective {A B : Type} (g : A -> B) (l : list A) :
  (forall x y, g x = g y -> x = y) -> NoDup l -> NoDup (map g l).
Proof.
  intros Hinj H. induction H as [|a l Ha _ IH]; simpl; constructor; [|exact IH].
  intros Hin. apply in_map_iff in Hin. destruct Hin as (x & Hx & Hin).
  apply Hinj in Hx. subst x. contradiction.
Qed.

Lemma NoDup_range (n : Z) : NoDup (range n).
Proof.
  unfold range. apply NoDup_map_injective; [apply Nat2Z.inj | apply seq_NoDup].
Qed.

Lemma NoDup_pairs (rows cols : list Z) :
  NoDup rows -> NoDup cols ->
  NoDup (flat_map (fun i => map (fun j => (i, j)) cols) rows).
Proof.
  intros Hrows Hcols. induction Hrows as [|i rows Hi _ IH]; [constructor|].
  cbn [flat_map]. apply NoDup_app.
  - apply NoDup_map_injective; [congruence | exact Hcols].
  - exact IH.
  - intros [i' j'] Hin Hin'.
    apply in_map_iff in Hin. destruct Hin as (j & Heq & _). injection Heq as <- <-.
    apply in_flat_map in Hin'. destruct Hin' as (i'' & Hi'' & Hin').
    apply in_map_iff in Hin'. destruct Hin' as (j'' & Heq & _). injection Heq as -> _.
    contradiction.
Qed.

Lemma NoDup_points (N : Z) : NoDup (points N).
Proof. apply NoDup_pairs; apply NoDup_range. Qed.

Section Stored.
Context {Sc : Scalar} {L : Libm Sc}.
Variable solver : F * F -> result (option outcome).
Variable label : pycomplex -> string.
Variable grid : list (list (F * F)).

(** After a loop over distinct index pairs, the matrix holds at each pair
    of the loop the logarithm stored for its outcome, and elsewhere what it
    held before. *)
Lemma evaluate_points_stored (ps : list (Z * Z)) :
  NoDup ps ->
  (forall ij, In ij ps -> 0 <= fst ij /\ 0 <= snd ij) ->
  forall fig fig' : figure,
    for_each ps (fun ij => evaluate_point solver label grid (fst ij) (snd ij)) fig =
    Return fig' ->
    (forall ij, In ij ps ->
       exists o, outcome_at solver grid ij o /\
                 getitem2 (log_n_matrix fig') (fst ij) (snd ij) = Return (log_counter o)) /\
    (forall ij, ~ In ij ps -> 0 <= fst ij -> 0 <= snd ij ->
       getitem2 (log_n_matrix fig') (fst ij) (snd ij) =
       getitem2 (log_n_matrix fig) (fst ij) (snd ij)).
Proof.
  intros Hnd. induction Hnd as [|[i j] ps Hnotin _ IH]; intros Hpos fig fig' H.
  - injection H as <-. split; [intros ij []|reflexivity].
  - cbn [for_each fst snd] in H.
    apply bind_Return in H. destruct H as (fig1 & H1 & H).
    apply evaluate_point_Return in H1. destruct H1 as (o & m & Ho & Hm & ->).
    assert (Hij : 0 <= i /\ 0 <= j) by (apply (Hpos (i, j)); left; reflexivity).
    apply IH in H; [|intros ij Hin; apply Hpos; right; exact Hin].
    destruct H as [Hin Hout]. cbn [log_n_matrix] in Hout. split.
    + intros ij [<- | Hij'].
      * exists o. split; [exact Ho|].
        rewrite (Hout (i, j) Hnotin) by (cbn [fst snd]; lia).
        cbn [fst snd]. apply (setitem2_same _ _ _ _ _ Hm).
      * apply Hin. exact Hij'.
    + intros [i' j'] Hnot Hi' Hj'. cbn [fst snd] in *.
      assert (Hrest : ~ In (i', j') ps) by (intros Hin'; apply Hnot; right; exact Hin').
      pose proof (Hout (i', j') Hrest Hi' Hj') as Hkeep.
      cbn [fst snd] in Hkeep. rewrite Hkeep.
      apply (setitem2_other _ _ i j i' j' _ Hm); try lia.
      intros Heq. apply Hnot. left. symmetry. exact Heq.
Qed.

Lemma evaluate_grid_stored (N : Z) (fig fig' : figure) :
  evaluate_grid solver label grid N fig = Return fig' ->
  (forall i j, 0 <= i < N -> 0 <= j < N ->
     exists o, outcome_at solver grid (i, j) o /\
               getitem2 (log_n_matrix fig') i j = Return (log_counter o)) /\
  (forall i j, 0 <= i -> 0 <= j -> ~ (i < N /\ j < N) ->
     getitem2 (log_n_matrix fig') i j = getitem2 (log_n_matrix fig) i j).
Proof.
  intros H. unfold evaluate_grid in H. rewrite nested_loops in H.
  apply evaluate_points_stored in H.
  - destruct H as [Hin Hout]. split.
    + intros i j Hi Hj. apply (Hin (i, j)). apply in_points. split; assumption.
    + intros i j Hi Hj Hnot. apply (Hout (i, j)); [|exact Hi | exact Hj].
      intros Hin'. apply in_points in Hin'. apply Hnot. lia.
  - apply NoDup_points.
  - intros [i j] Hin'. apply in_points in Hin'. cbn [fst snd]. lia.
Qed.

End Stored.

(** X9. When the loops over the grid return, log_n_matrix[i][j] is, for
    every i and j in [0, N), log10 of the counter of the outcome the solver
    returned at grid[i][j], a counter between 1 and M; the elements at other
    indices are as they were. *)
Theorem matrix_of_logarithms {Sc : Scalar} {L : Libm Sc}
        (M N : Z) (tol tol2 : F) (grid : list (list (F * F))) (fig fig' : figure) :
  (evaluate_grid (solve_cnewton M tol) (classify tol2) grid N fig = Return fig' ->
   (forall i j, 0 <= i < N -> 0 <= j < N ->
      exists o, outcome_at (solve_cnewton M tol) grid (i, j) o /\
                getitem2 (log_n_matrix fig') i j = Return (log10 (of_int (counter o))) /\
                1 <= counter o <= M) /\
   (forall i j, 0 <= i -> 0 <= j -> ~ (i < N /\ j < N) ->
      getitem2 (log_n_matrix fig') i j = getitem2 (log_n_matrix fig) i j)) /\
  (evaluate_grid (solve_cnewton2 M tol) (classify2 tol2) grid N fig = Return fig' ->
   (forall i j, 0 <= i < N -> 0 <= j < N ->
      exists o, outcome_at (solve_cnewton2 M tol) grid (i, j) o /\
                getitem2 (log_n_matrix fig') i j = Return (log10 (of_int (counter o))) /\
                1 <= counter o <= M) /\
   (forall i j, 0 <= i -> 0 <= j -> ~ (i < N /\ j < N) ->
      getitem2 (log_n_matrix fig') i j = getitem2 (log_n_matrix fig) i j)).
Proof.
  split; intros H; apply evaluate_grid_stored in H; destruct H as [Hin Hout];
    (split; [|exact Hout]); intros i j Hi Hj;
    destruct (Hin i j Hi Hj) as (o & Ho & Hget); exists o;
    (split; [exact Ho|]);
    destruct Ho as (duplet & _ & Hs); apply solve_outcome in Hs;
    destruct Hs as (_ & _ & Hc & Hl); rewrite <- Hl; split; assumption.
Qed.

(** On the grid of 2 by 2 points between (-2, 2) and (1, -1), the loops
    running over a matrix of 3 by 3 elements all 7: the four elements of
    the grid are overwritten, with the logarithms of the counters 8, 23, 8
    and 9 under the coarse libm, and the five others are left. *)
Lemma matrix_of_logarithms_witness :
  (forall i j, 0 <= i < 2 -> 0 <= j < 2 ->
     exists o : @outcome ieee,
       outcome_at (@solve_cnewton ieee coarse_libm 200 (@tolerance ieee))
                  
      [[((-2)%float, 2%float); (1%float, 2%float)];
       [((-2)%float, (-1)%float); (1%float, (-1)%float)]] (i, j) o /\
       @getitem2 (@F ieee)
         [[0x1.ce61cf8ef36fep-1%float; 0x1.34413509f79ffp+0%float; 7%float];
          [0x1.ce61cf8ef36fep-1%float; 0x1.ce61cf8ef36fep-1%float; 7%float];
          [7%float; 7%float; 7%float]] i j =
       Return (@log10 ieee coarse_libm (of_int (counter o))) /\
       1 <= counter o <= 200) /\
  (forall i j, 0 <= i -> 0 <= j -> ~ (i < 2 /\ j < 2) ->
     @getitem2 (@F ieee)
       [[0x1.ce61cf8ef36fep-1%float; 0x1.34413509f79ffp+0%float; 7%float];
        [0x1.ce61cf8ef36fep-1%float; 0x1.ce61cf8ef36fep-1%float; 7%float];
        [7%float; 7%float; 7%float]] i j =
     @getitem2 (@F ieee)
       [[7%float; 7%float; 7%float];
        [7%float; 7%float; 7%float];
        [7%float; 7%float; 7%float]] i j).
Proof.
  apply (proj1 (@matrix_of_logarithms ieee coarse_libm 200 2
                  (@tolerance ieee) (@tolerance2 ieee) 
      [[((-2)%float, 2%float); (1%float, 2%float)];
       [((-2)%float, (-1)%float); (1%float, (-1)%float)]]
                  (@mk_figure ieee
                     [[7%float; 7%float; 7%float];
                      [7%float; 7%float; 7%float];
                      [7%float; 7%float; 7%float]] [])
                  (@mk_figure ieee
                     [[0x1.ce61cf8ef36fep-1%float; 0x1.34413509f79ffp+0%float; 7%float];
                      [0x1.ce61cf8ef36fep-1%float; 0x1.ce61cf8ef36fep-1%float; 7%float];
                      [7%float; 7%float; 7%float]]
                     [((-2)%float, 2%float, "g"%string);
                      (1%float, 2%float, "k"%string);
                      ((-2)%float, (-1)%float, "r"%string);
                      (1%float, (-1)%float, "k"%string)]))).
  run.
Defined.

(** ** The zoomed cell *)

Lemma for_each_Raise {A St : Type} (xs : list A) (body : A -> St -> result St) (e : exn) :
  forall st, for_each xs body st = Raise e ->
             exists x st', In x xs /\ body x st' = Raise e.
Proof.
  induction xs as [|x xs IH]; intros st H; [discriminate|].
  cbn [for_each] in H. apply bind_Raise in H. destruct H as [H|(st1 & _ & H)].
  - exists x, st. split; [left; reflexivity | exact H].
  - apply IH in H. destruct H as (x' & st' & Hin & H).
    exists x', st'. split; [right; exact Hin | exact H].
Qed.

Section Zoom.
Context {Sc : Scalar} {L : Libm Sc}.
Variable solver : F * F -> result (option outcome).
Variable label : pycomplex -> string.
Variable grid : list (list (F * F)).

Lemma evaluate_point_zoom_Return (i j : Z) (fig fig' : figure) :
  evaluate_point_zoom solver label grid i j fig = Return fig' ->
  exists o,
    outcome_at solver grid (i, j) o /\
    fig' = mk_figure (log_n_matrix fig) (scatter fig ++ [marker label o]).
Proof.
  unfold evaluate_point_zoom. intros H.
  apply bind_Return in H. destruct H as (duplet & Hg & H).
  apply bind_Return in H. destruct H as (returned & Hs & H).
  apply bind_Return in H. destruct H as (o & Ho & H).
  destruct returned as [o'|]; [|discriminate]. injection Ho as ->.
  injection H as <-.
  exists o. split; [|reflexivity].
  exists duplet. split; assumption.
Qed.

(** What the body of the zoomed cell raises: what reading the grid raises,
    what the solver raises, or TypeError when the solver returns None. *)
Lemma evaluate_point_zoom_Raise (i j : Z) (fig : figure) (e : exn) :
  evaluate_point_zoom solver label grid i j fig = Raise e ->
  getitem2 grid i j = Raise e \/
  exists duplet, getitem2 grid i j = Return duplet /\
                 (solver duplet = Raise e \/ (solver duplet = Return None /\ e = TypeError)).
Proof.
  unfold evaluate_point_zoom. intros H.
  apply bind_Raise in H. destruct H as [H|(duplet & Hg & H)]; [left; exact H|].
  right. exists duplet. split; [exact Hg|].
  apply bind_Raise in H. destruct H as [H|(returned & Hs & H)]; [left; exact H|].
  destruct returned as [o|]; [discriminate|].
  right. split; [exact Hs|]. cbn in H. congruence.
Qed.

Lemma zoom_points (ps : list (Z * Z)) :
  forall fig fig' : figure,
    for_each ps (fun ij => evaluate_point_zoom solver label grid (fst ij) (snd ij)) fig =
    Return fig' ->
    log_n_matrix fig' = log_n_matrix fig /\
    exists os,
      Forall2 (outcome_at solver grid) ps os /\
      scatter fig' = scatter fig ++ map (marker label) os.
Proof.
  induction ps as [|[i j] ps IH]; intros fig fig' H.
  - injection H as <-. split; [reflexivity|]. exists []. split; [constructor|].
    rewrite app_nil_r. reflexivity.
  - cbn [for_each fst snd] in H.
    apply bind_Return in H. destruct H as (fig1 & H1 & H).
    apply evaluate_point_zoom_Return in H1. destruct H1 as (o & Ho & ->).
    apply IH in H. destruct H as (Hlog & os & Hos & Hsc).
    split; [exact Hlog|].
    exists (o :: os). split; [constructor; assumption|].
    rewrite Hsc. cbn [scatter map]. rewrite <- app_assoc. reflexivity.
Qed.

End Zoom.

(** X10. The zoomed cell never writes log_n_matrix: when it returns, the
    matrix is the matrix of zeros it was given, and the markers are those
    of the index pairs, in the order of the loops. What it raises is
    ValueError, for N < 0 only, TypeError, for M <= 0 only, or an exception
    of the arithmetic; having no test call it never raises IndexError. *)
Theorem zoom_cell_behaviour {Sc : Scalar} {L : Libm Sc}
        (M N : Z) (tol tol2 : F) (grid_point1 grid_point2 : F * F) :
  (forall fig,
      zoom_cell M N tol tol2 grid_point1 grid_point2 = Return fig ->
      zeros N = Return (log_n_matrix fig) /\
      exists grid os,
        make_grid grid_point1 grid_point2 N = Return grid /\
        Forall2 (outcome_at (solve_cnewton M tol) grid) (points N) os /\
        scatter fig = map (marker (classify tol2)) os) /\
  (forall e,
      zoom_cell M N tol tol2 grid_point1 grid_point2 = Raise e ->
      (e = ValueError /\ N < 0) \/ (e = TypeError /\ M <= 0) \/ arithmetic_fault e).
Proof.
  split.
  - intros fig H. unfold zoom_cell in H.
    apply bind_Return in H. destruct H as (grid & Hg & H).
    apply bind_Return in H. destruct H as (zs & Hz & H).
    rewrite nested_loops in H. apply zoom_points in H.
    destruct H as (Hlog & os & Hos & Hsc). cbn [log_n_matrix scatter] in *.
    split; [rewrite Hlog; exact Hz|].
    exists grid, os. split; [exact Hg|]. split; [exact Hos|]. exact Hsc.
  - intros e H. unfold zoom_cell in H.
    destruct (Z.lt_ge_cases N 0) as [HN|HN].
    { rewrite make_grid_negative in H by exact HN. cbn [bind] in H.
      left. split; [congruence | exact HN]. }
    destruct (make_grid_square grid_point1 grid_point2 N) as (grid & Hg & Hsq); [lia|].
    rewrite Hg in H. cbn [bind] in H.
    unfold zeros in H. destruct (Z.ltb_spec N 0); [lia|]. cbn [bind] in H.
    rewrite nested_loops in H. apply for_each_Raise in H.
    destruct H as ([i j] & st & Hin & H). cbn [fst snd] in H.
    apply in_points in Hin.
    apply evaluate_point_zoom_Raise in H. destruct H as [H|(duplet & _ & [H|[H He]])].
    + destruct (getitem2_inside grid N i j Hsq) as (v & Hv); [lia | lia |]. congruence.
    + right. right. apply (solve_cnewton_Raise M tol duplet). exact H.
    + right. left. split; [exact He|].
      destruct (Z.le_gt_cases M 0) as [HM|HM]; [exact HM|].
      exfalso. revert H. apply solve_budget. lia.
Qed.

(** ** The budget, once the test has held *)

Section Budget.
Context {Sc : Scalar} {L : Libm Sc}.
Variable tol : F.
Variables update func : pycomplex -> result pycomplex.
Variables x0 y0 : F.

Lemma solve_budget_irrelevant (M M' : Z) (o : outcome) :
  solve M tol update func x0 y0 = Return (Some o) ->
  counter o < M -> counter o <= M' ->
  solve M' tol update func x0 y0 = Return (Some o).
Proof.
  intros H Hlt Hle.
  pose proof (solve_outcome M tol update func x0 y0 o H) as (Hx & Hy & Hc & Hl).
  apply solve_explained in H. destruct H as (n & Hn & Hr & Hfr & Hus & Hds & Hlast).
  cbn [fst snd] in *.
  destruct Hlast as [Hlast | Hlast]; [|lia].
  set (zs := orbit update (complex x0 y0)) in *.
  assert (Hval : value_of func (zs (S n)) = f_root o).
  { unfold value_of. rewrite <- Hr, Hfr. reflexivity. }
  rewrite (solve_hit M' tol update func x0 y0 zs (fun m => value_of func (zs m)) (S n)).
  - rewrite Hval, <- Hr, <- Hn, <- Hl, <- Hx, <- Hy. destruct o; reflexivity.
  - lia.
  - intros m Hm. split; [apply Hus; lia|].
    destruct (Nat.eq_dec m n) as [->|Hmn].
    + rewrite Nat.eqb_refl, Hval, <- Hr. split; [exact Hfr | exact Hlast].
    + replace (Nat.eqb (S m) (S n)) with false
        by (symmetry; apply Nat.eqb_neq; lia).
      apply Hds. lia.
  - lia.
  - reflexivity.
Qed.

End Budget.

(** X11. An outcome whose counter is below the budget does not depend on
    the budget: the solver returns the same outcome for every budget that is
    at least the counter. *)
Theorem budget_is_irrelevant {Sc : Scalar} {L : Libm Sc}
        (M M' : Z) (tol : F) (duplet : F * F) (o : outcome) :
  counter o < M -> counter o <= M' ->
  (solve_cnewton M tol duplet = Return (Some o) ->
   solve_cnewton M' tol duplet = Return (Some o)) /\
  (solve_cnewton2 M tol duplet = Return (Some o) ->
   solve_cnewton2 M' tol duplet = Return (Some o)).
Proof.
  intros Hlt Hle. split; intros H.
  - unfold solve_cnewton in *. apply (solve_budget_irrelevant tol _ _ _ _ M M'); assumption.
  - unfold solve_cnewton2 in *. apply (solve_budget_irrelevant tol _ _ _ _ M M'); assumption.
Qed.

Lemma budget_is_irrelevant_witness :
  @solve_cnewton ieee coarse_libm 8 (@tolerance ieee) ((-2)%float, 2%float) =
  Return (Some (outcome64 (-2)%float 2%float
                  (complex64 (-0.5)%float 0x1.bb67ae8584cabp-1%float)
                  (complex64 0x1p-52%float (-0x1p-53)%float)
                  8 0x1.ce61cf8ef36fep-1%float)).
Proof.
  match goal with
  | |- _ = Return (Some ?o) =>
      apply (proj1 (@budget_is_irrelevant ieee coarse_libm 200 8 (@tolerance ieee)
                      ((-2)%float, 2%float) o ltac:(cbn; lia) ltac:(cbn; lia)))
  end.
  run.
Defined.

(** ** A cell with a grid of 3 by 3 at least and a budget *)

Lemma set_nth_length {A : Type} (l : list A) :
  forall (n : nat) (v : A) (l' : list A),
    set_nth l n v = Some l' -> List.length l' = List.length l.
Proof.
  induction l as [|a l IH]; intros n v l' H; [discriminate|].
  destruct n as [|n]; simpl in H.
  - injection H as <-. reflexivity.
  - destruct (set_nth l n v) as [l1|] eqn:E; [|discriminate].
    injection H as <-. simpl. rewrite (IH n v l1 E). reflexivity.
Qed.

Lemma set_nth_inside {A : Type} (l : list A) :
  forall (n : nat) (v : A),
    (n < List.length l)%nat -> exists l', set_nth l n v = Some l'.
Proof.
  induction l as [|a l IH]; intros n v Hn; [simpl in Hn; lia|].
  destruct n as [|n]; simpl.
  - eexists. reflexivity.
  - destruct (IH n v) as (l1 & ->); [simpl in Hn; lia|].
    eexists. reflexivity.
Qed.

Lemma set_nth_Forall {A : Type} (P : A -> Prop) (l : list A) :
  forall (n : nat) (v : A) (l' : list A),
    Forall P l -> P v -> set_nth l n v = Some l' -> Forall P l'.
Proof.
  induction l as [|a l IH]; intros n v l' Hl Hv H; [discriminate|].
  inversion Hl as [|a' l0 Ha Hl']; subst.
  destruct n as [|n]; simpl in H.
  - injection H as <-. constructor; assumption.
  - destruct (set_nth l n v) as [l1|] eqn:E; [|discriminate].
    injection H as <-. constructor; [exact Ha|].
    apply (IH n v l1); assumption.
Qed.

Lemma zeros_square {Sc : Scalar} (N : Z) :
  0 <= N -> exists m, zeros N = Return m /\ square N m.
Proof.
  intros HN. unfold zeros. destruct (Z.ltb_spec N 0); [lia|].
  eexists. split; [reflexivity|]. split.
  - apply repeat_length.
  - apply Forall_forall. intros row Hrow. apply repeat_spec in Hrow. subst row.
    apply repeat_length.
Qed.

(** Writing into a square matrix keeps it square, and succeeds within its
    bounds. *)
Lemma setitem2_keeps_square {A : Type} (m m' : list (list A)) (N i j : Z) (v : A) :
  square N m -> setitem2 m i j v = Return m' -> square N m'.
Proof.
  intros [Hrows Hcols] H. unfold setitem2 in H.
  apply bind_Return in H. destruct H as (row & Hrow & H).
  apply bind_Return in H. destruct H as (row' & Hrow' & H).
  apply from_option_Return in Hrow, Hrow', H.
  split.
  - rewrite (set_nth_length _ _ _ _ H). exact Hrows.
  - apply (set_nth_Forall _ m (Z.to_nat i) row'); [exact Hcols | | exact H].
    rewrite (set_nth_length _ _ _ _ Hrow').
    rewrite Forall_forall in Hcols. apply Hcols.
    apply nth_error_In with (Z.to_nat i). exact Hrow.
Qed.

Lemma setitem2_inside {A : Type} (m : list (list A)) (N i j : Z) (v : A) :
  square N m -> 0 <= i < N -> 0 <= j < N ->
  exists m', setitem2 m i j v = Return m'.
Proof.
  intros [Hrows Hcols] Hi Hj. unfold setitem2.
  destruct (nth_error m (Z.to_nat i)) as [row|] eqn:Erow.
  - cbn [from_option bind].
    assert (Hlen : List.length row = Z.to_nat N).
    { rewrite Forall_forall in Hcols. apply Hcols.
      apply nth_error_In with (Z.to_nat i). exact Erow. }
    destruct (set_nth_inside row (Z.to_nat j) v) as (row' & ->); [lia|].
    cbn [from_option bind].
    destruct (set_nth_inside m (Z.to_nat i) row') as (m' & ->); [lia|].
    exists m'. reflexivity.
  - apply nth_error_None in Erow. lia.
Qed.

(** A fault of a loop that keeps an invariant is a fault of its body in a
    state with the invariant. *)
Lemma for_each_Raise_invariant {A St : Type} (P : St -> Prop)
      (xs : list A) (body : A -> St -> result St) (e : exn) :
  (forall x st st', In x xs -> P st -> body x st = Return st' -> P st') ->
  forall st, P st -> for_each xs body st = Raise e ->
             exists x st', In x xs /\ P st' /\ body x st' = Raise e.
Proof.
  induction xs as [|x xs IH]; intros Hkeep st Hst H; [discriminate|].
  cbn [for_each] in H. apply bind_Raise in H. destruct H as [H|(st1 & H1 & H)].
  - exists x, st. split; [left; reflexivity|]. split; assumption.
  - destruct (IH ltac:(intros x' s s' Hin; apply Hkeep; right; exact Hin) st1)
      as (x' & st' & Hin & Hst' & H'); [|exact H|].
    + apply (Hkeep x st st1); [left; reflexivity | exact Hst | exact H1].
    + exists x', st'. split; [right; exact Hin|]. split; assumption.
Qed.

Section CellRuns.
Context {Sc : Scalar} {L : Libm Sc}.
Variable N : Z.
Variables grid_point1 grid_point2 : F * F.
Variable solver : F * F -> result (option outcome).
Variable label : pycomplex -> string.

Hypothesis solver_faults : forall duplet e, solver duplet = Raise e -> arithmetic_fault e.
Hypothesis solver_returns_outcome : forall duplet, solver duplet <> Return None.

Lemma evaluate_point_fault (grid : list (list (F * F))) (i j : Z) (fig : figure) (e : exn) :
  square N grid -> square N (log_n_matrix fig) ->
  0 <= i < N -> 0 <= j < N ->
  evaluate_point solver label grid i j fig = Raise e -> arithmetic_fault e.
Proof.
  intros Hgrid Hlog Hi Hj H. unfold evaluate_point in H.
  destruct (getitem2_inside grid N i j Hgrid Hi Hj) as (duplet & Hd).
  rewrite Hd in H. cbn [bind] in H.
  destruct (solver duplet) as [[o|]|e'] eqn:Es; cbn [bind from_option] in H.
  - destruct (setitem2_inside (log_n_matrix fig) N i j (log_counter o) Hlog Hi Hj)
      as (m' & Hm').
    rewrite Hm' in H. discriminate.
  - exfalso. apply (solver_returns_outcome duplet). exact Es.
  - injection H as <-. apply (solver_faults duplet). exact Es.
Qed.

Lemma evaluate_point_keeps_square (grid : list (list (F * F))) (i j : Z)
      (fig fig' : figure) :
  square N (log_n_matrix fig) ->
  evaluate_point solver label grid i j fig = Return fig' ->
  square N (log_n_matrix fig').
Proof.
  intros Hlog H. apply evaluate_point_Return in H.
  destruct H as (o & m & _ & Hm & ->). cbn [log_n_matrix].
  apply (setitem2_keeps_square _ _ N _ _ _ Hlog Hm).
Qed.

Lemma cell_returns_or_faults :
  3 <= N ->
  let cell :=
    (grid <- make_grid grid_point1 grid_point2 N ;;
     test_point <- getitem2 grid 2 1 ;;
     test <- solver test_point ;;
     _ <- from_option TypeError test ;;
     log_n_matrix <- zeros N ;;
     evaluate_grid solver label grid N (mk_figure log_n_matrix [])) in
  (exists fig, cell = Return fig) \/ (exists e, cell = Raise e /\ arithmetic_fault e).
Proof.
  intros HN cell.
  destruct cell as [fig|e] eqn:E; [left; exists fig; reflexivity|].
  right. exists e. split; [reflexivity|].
  unfold cell in E.
  destruct (make_grid_square grid_point1 grid_point2 N) as (grid & Hg & Hsq); [lia|].
  rewrite Hg in E. cbn [bind] in E.
  destruct (getitem2_inside grid N 2 1 Hsq) as (duplet & Hd); [lia | lia |].
  rewrite Hd in E. cbn [bind] in E.
  destruct (solver duplet) as [[o|]|e'] eqn:Es; cbn [bind from_option] in E.
  - destruct (zeros_square N) as (m & Hm & Hmsq); [lia|].
    rewrite Hm in E. cbn [bind] in E.
    unfold evaluate_grid in E. rewrite nested_loops in E.
    apply (for_each_Raise_invariant (fun fig => square N (log_n_matrix fig))) in E.
    + destruct E as ([i j] & fig & Hin & Hfig & E). cbn [fst snd] in E.
      apply in_points in Hin.
      apply (evaluate_point_fault grid i j fig e); tauto.
    + intros [i j] st st' _ Hst Hbody. cbn [fst snd] in Hbody.
      apply (evaluate_point_keeps_square grid i j st st'); assumption.
    + exact Hmsq.
  - exfalso. apply (solver_returns_outcome duplet). exact Es.
  - injection E as <-. apply (solver_faults duplet). exact Es.
Qed.

End CellRuns.

(** X12. With N >= 3 and M >= 1 the cell of the cubic and that of the
    polynomial of degree 9 return a figure unless the arithmetic raises:
    the only exceptions that leave them are ZeroDivisionError and
    OverflowError; no index is out of bounds and no None is unpacked. *)
Theorem cells_return_or_fault {Sc : Scalar} {L : Libm Sc}
        (M N : Z) (tol tol2 : F) (grid_point1 grid_point2 : F * F) :
  3 <= N -> 1 <= M ->
  ((exists fig, cubic_cell M N tol tol2 grid_point1 grid_point2 = Return fig) \/
   (exists e, cubic_cell M N tol tol2 grid_point1 grid_point2 = Raise e /\
              arithmetic_fault e)) /\
  ((exists fig, degree9_cell M N tol tol2 grid_point1 grid_point2 = Return fig) \/
   (exists e, degree9_cell M N tol tol2 grid_point1 grid_point2 = Raise e /\
              arithmetic_fault e)).
Proof.
  intros HN HM. split.
  - apply (cell_returns_or_faults N grid_point1 grid_point2
             (solve_cnewton M tol) (classify tol2)).
    + intros duplet e. apply solve_cnewton_Raise.
    + intros duplet. apply solve_budget. exact HM.
    + exact HN.
  - apply (cell_returns_or_faults N grid_point1 grid_point2
             (solve_cnewton2 M tol) (classify2 tol2)).
    + intros duplet e. apply solve_cnewton2_Raise.
    + intros duplet. apply solve_budget. exact HM.
    + exact HN.
Qed.

Lemma cells_return_or_fault_witness :
  ((exists fig, @cubic_cell ieee coarse_libm 200 3 (@tolerance ieee) (@tolerance2 ieee)
                            (@grid_point1 ieee) (@grid_point2 ieee) = Return fig) \/
   (exists e, @cubic_cell ieee coarse_libm 200 3 (@tolerance ieee) (@tolerance2 ieee)
                          (@grid_point1 ieee) (@grid_point2 ieee) = Raise e /\
              arithmetic_fault e)) /\
  ((exists fig, @degree9_cell ieee coarse_libm 200 3 (@tolerance ieee) (@tolerance2 ieee)
                              (@grid_point1 ieee) (@grid_point2 ieee) = Return fig) \/
   (exists e, @degree9_cell ieee coarse_libm 200 3 (@tolerance ieee) (@tolerance2 ieee)
                            (@grid_point1 ieee) (@grid_point2 ieee) = Raise e /\
              arithmetic_fault e)).
Proof.
  apply (@cells_return_or_fault ieee coarse_libm 200 3); lia.
Defined.

(** The zoomed window of the script with 2 by 2 points: the solver
    returns with the counters 12, 22, 12 and 23, whose logarithms are not 0,
    the four markers are red, green, red and green, and the matrix is the
    matrix of zeros. *)
Lemma zoom_cell_behaviour_witness :
  (@zeros ieee 2 = Return [[0%float; 0%float]; [0%float; 0%float]] /\
   exists (grid : list (list (@F ieee * @F ieee))) (os : list (@outcome ieee)),
     @make_grid ieee (@zoom_point1 ieee) (@zoom_point2 ieee) 2 = Return grid /\
     Forall2 (outcome_at (@solve_cnewton ieee coarse_libm 200 (@tolerance ieee)) grid)
             (points 2) os /\
     [(fst (@zoom_point1 ieee), snd (@zoom_point1 ieee), "r"%string);
      (fst (@zoom_point2 ieee), snd (@zoom_point1 ieee), "g"%string);
      (fst (@zoom_point1 ieee), snd (@zoom_point2 ieee), "r"%string);
      (fst (@zoom_point2 ieee), snd (@zoom_point2 ieee), "g"%string)] =
     map (marker (@classify ieee (@tolerance2 ieee))) os) /\
  map (fun duplet =>
         match @solve_cnewton ieee coarse_libm 200 (@tolerance ieee) duplet with
         | Return (Some o) => Some (counter o, log_counter o)
         | _ => None
         end)
      [@zoom_point1 ieee;
       (fst (@zoom_point2 ieee), snd (@zoom_point1 ieee));
       (fst (@zoom_point1 ieee), snd (@zoom_point2 ieee));
       @zoom_point2 ieee] =
  [Some (12, 0x1.ce61cf8ef36fep-1%float); Some (22, 0x1.34413509f79ffp+0%float);
   Some (12, 0x1.ce61cf8ef36fep-1%float); Some (23, 0x1.34413509f79ffp+0%float)].
Proof.
  split; [|run].
  apply (proj1 (@zoom_cell_behaviour ieee coarse_libm 200 2
                  (@tolerance ieee) (@tolerance2 ieee)
                  (@zoom_point1 ieee) (@zoom_point2 ieee))
               (@mk_figure ieee [[0%float; 0%float]; [0%float; 0%float]]
                  [(fst (@zoom_point1 ieee), snd (@zoom_point1 ieee), "r"%string);
                   (fst (@zoom_point2 ieee), snd (@zoom_point1 ieee), "g"%string);
                   (fst (@zoom_point1 ieee), snd (@zoom_point2 ieee), "r"%string);
                   (fst (@zoom_point2 ieee), snd (@zoom_point2 ieee), "g"%string)])).
  run.
Defined.
